(** * HealthcareCM: the case store gateway, the case filter, the metrics
      aggregator and the view-model helpers

    A shallow embedding of [src/utils/case_utils.py] (class [CaseManager])
    and of the helper functions at the top of [src/app.py]
    ([convert_decimals], [format_timestamp], [safe_get]), together with the
    parts of the Python runtime they call ([decimal], [datetime], [str]
    methods) and the test doubles of [tests/test_app.py]. *)

From Stdlib Require Import ZArith NArith List String Ascii Bool Lia.
From Stdlib Require Import Floats.SpecFloat.
From Stdlib Require DecimalString.
From stdpp Require Import base option list strings gmap.

Open Scope string_scope.
Open Scope Z_scope.

(** ** Exceptions and results *)

(** A raised Python exception: the name of its class and [str(e)].  Only
    instances of [Exception] are represented, which is what the
    [except Exception] and the bare [except] clauses of the sources catch
    in practice. *)
Inductive exn : Type :=
  Exn (cls : string) (msg : string).

Definition exn_str (e : exn) : string :=
  match e with Exn _ msg => msg end.

Inductive result (A : Type) : Type :=
| Ok (a : A)
| Raise (e : exn).
Arguments Ok {A} a.
Arguments Raise {A} e.

(** Sequencing stops at the first exception; [x ← m; k] is stdpp's
    notation for it. *)
#[export] Instance result_ret : MRet result := fun A a => Ok a.
#[export] Instance result_bind : MBind result := fun A B k r =>
  match r with
  | Ok a => k a
  | Raise e => Raise e
  end.
#[export] Instance result_fmap : FMap result := fun A B f r =>
  match r with
  | Ok a => Ok (f a)
  | Raise e => Raise e
  end.

Definition is_ok {A} (r : result A) : bool :=
  match r with Ok _ => true | Raise _ => false end.

(** ** The [decimal] module under its default context *)

Module decimal.

(** [getcontext()] at start-up: [prec=28], [rounding=ROUND_HALF_EVEN],
    [Emin=-999999], with [InvalidOperation] trapped.  Neither the sources
    nor the libraries they load change it. *)
Definition prec : Z := 28.
Definition Emin : Z := -999999.
Definition Emax : Z := 999999.
Definition Etiny : Z := Emin - prec + 1.

(** A [Decimal]: sign, coefficient and exponent of a finite number
    ([(-1)^sign * coef * 10^exp]), or one of the special values. *)
Inductive Decimal : Type :=
| Finite (sign : bool) (coef : N) (exp : Z)
| Infinity (sign : bool)
| NaN (signaling : bool).

Definition InvalidOperation (what : string) : exn :=
  Exn "InvalidOperation" ("[<class 'decimal." +:+ what +:+ "'>]").

(** Number of decimal digits of a non-negative integer ([len(self._int)];
    the coefficient [0] has one digit). *)
Fixpoint ndigits_fuel (fuel : nat) (n : Z) : Z :=
  match fuel with
  | O => 1
  | S f => if n <? 10 then 1 else 1 + ndigits_fuel f (n / 10)
  end.

Definition ndigits (n : Z) : Z :=
  ndigits_fuel (Z.to_nat (Z.log2 n)) n.

(** [Decimal._fix(context)]: round a result to [prec] significant digits,
    half to even, not below exponent [Etiny]; a zero keeps an exponent
    clamped into the context's range.  [Overflow] cannot arise for the
    arguments used here (remainders of a division by one). *)
Definition fix_ (d : Decimal) : Decimal :=
  match d with
  | Finite s c e =>
      let c := Z.of_N c in
      if c =? 0 then Finite s 0 (Z.min (Z.max e Etiny) Emax)
      else
        let exp_min := Z.max (ndigits c + e - prec) Etiny in
        if e <? exp_min then
          let k := exp_min - e in
          let q := c / 10 ^ k in
          let r := c mod 10 ^ k in
          let q' :=
            if (10 ^ k <? 2 * r) || ((2 * r =? 10 ^ k) && Z.odd q)
            then q + 1 else q in
          if prec <? ndigits q'
          then Finite s (Z.to_N (q' / 10)) (exp_min + 1)
          else Finite s (Z.to_N q') exp_min
        else d
  | _ => d
  end.

(** [d % 1]: the remainder of the truncating division by one, with the
    sign of [d].  The operation signals [DivisionImpossible] (a trapped
    [InvalidOperation]) when the integer quotient needs more than [prec]
    digits, and [InvalidOperation] on an infinity or a signaling NaN; a
    quiet NaN propagates. *)
Definition mod_1 (d : Decimal) : result Decimal :=
  match d with
  | NaN false => Ok (NaN false)
  | NaN true => Raise (InvalidOperation "InvalidOperation")
  | Infinity _ => Raise (InvalidOperation "InvalidOperation")
  | Finite s c e =>
      let num := Z.of_N c * 10 ^ Z.max e 0 in
      let den := 10 ^ Z.max (- e) 0 in
      if num / den <? 10 ^ prec
      then Ok (fix_ (Finite s (Z.to_N (num mod den)) (Z.min e 0)))
      else Raise (InvalidOperation "DivisionImpossible")
  end.

(** [d != 0]. *)
Definition ne_0 (d : Decimal) : result bool :=
  match d with
  | Finite _ c _ => Ok (negb (N.eqb c 0))
  | Infinity _ => Ok true
  | NaN false => Ok true
  | NaN true => Raise (InvalidOperation "InvalidOperation")
  end.

(** [int(d)]: truncation towards zero. *)
Definition to_int (d : Decimal) : result Z :=
  match d with
  | Finite s c e =>
      let m := if 0 <=? e then Z.of_N c * 10 ^ e else Z.of_N c / 10 ^ (- e) in
      Ok (if s then - m else m)
  | Infinity _ =>
      Raise (Exn "OverflowError" "cannot convert Infinity to integer")
  | NaN _ =>
      Raise (Exn "ValueError" "cannot convert NaN to integer")
  end.

(** [float(d)]: the binary64 number nearest to [d], ties to even, an
    infinity when out of range. *)
Definition to_float (d : Decimal) : result spec_float :=
  match d with
  | Finite s c e =>
      if N.eqb c 0 then Ok (S754_zero s)
      else
        let num := Z.of_N c * 10 ^ Z.max e 0 in
        let den := 10 ^ Z.max (- e) 0 in
        let '(mz, ez, lz) := SFdiv_core_binary 53 1024 num 0 den 0 in
        Ok (binary_round_aux 53 1024 s mz ez lz)
  | Infinity s => Ok (S754_infinity s)
  | NaN false => Ok S754_nan
  | NaN true =>
      Raise (Exn "ValueError" "cannot convert signaling NaN to float")
  end.

(** A finite decimal with zero fractional part. *)
Definition is_integral (d : Decimal) : Prop :=
  match d with
  | Finite _ c e => (Z.of_N c * 10 ^ Z.max e 0) mod 10 ^ Z.max (- e) 0 = 0
  | _ => False
  end.

End decimal.
Export decimal(Decimal).

(** ** Python values *)

#[local] Set Warnings "-register-all".

(** The values the store client hands out (DynamoDB's deserialised
    attribute types: [None], [bool], [Decimal], [str], [list], [set],
    [dict] with string keys) and the native numbers that normalisation
    produces.  A [dict] is kept as its items in insertion order; [dict_get]
    takes the first entry of a key. *)
Inductive pyval : Type :=
| VNone
| VBool (b : bool)
| VInt (n : Z)
| VFloat (f : spec_float)
| VDecimal (d : Decimal)
| VStr (s : string)
| VList (items : list pyval)
| VSet (items : list pyval)
| VDict (items : list (string * pyval)).

Abbreviation dict := (list (string * pyval)).

(** [key in d] and [d[key]] in one: [None] when the key is absent. *)
Fixpoint dict_get (key : string) (d : dict) : option pyval :=
  match d with
  | [] => None
  | (k, v) :: rest => if String.eqb k key then Some v else dict_get key rest
  end.

(** [d.get(key)], which is [None] for an absent key. *)
Definition get (d : dict) (key : string) : pyval :=
  match dict_get key d with
  | Some v => v
  | None => VNone
  end.

(** [d.get(key, default)]. *)
Definition get_default (d : dict) (key : string) (default : pyval) : pyval :=
  match dict_get key d with
  | Some v => v
  | None => default
  end.

(** [v == s] for a string [s]: only an equal [str] compares equal. *)
Definition eq_str (v : pyval) (s : string) : bool :=
  match v with
  | VStr t => String.eqb t s
  | _ => false
  end.

(** [v in allowed] for a list of strings. *)
Definition in_strs (v : pyval) (allowed : list string) : bool :=
  existsb (eq_str v) allowed.

(** ** Strings *)

(** [s.split(sep)] for a one-character separator: never empty. *)
Fixpoint split (sep : ascii) (s : string) : list string :=
  match s with
  | EmptyString => [EmptyString]
  | String c rest =>
      if Ascii.eqb c sep then EmptyString :: split sep rest
      else match split sep rest with
           | hd :: tl => String c hd :: tl
           | [] => [String c EmptyString]
           end
  end.

(** [s.replace(old, new)] for a one-character [old]. *)
Fixpoint replace (old : ascii) (new : string) (s : string) : string :=
  match s with
  | EmptyString => EmptyString
  | String c rest =>
      if Ascii.eqb c old then new +:+ replace old new rest
      else String c (replace old new rest)
  end.

Fixpoint starts_with (p s : string) : bool :=
  match p, s with
  | EmptyString, _ => true
  | String a p', String b s' => Ascii.eqb a b && starts_with p' s'
  | String _ _, EmptyString => false
  end.

(** [sub in s] on strings. *)
Fixpoint contains (sub s : string) : bool :=
  starts_with sub s ||
  match s with
  | EmptyString => false
  | String _ s' => contains sub s'
  end.

(** ** Decimal normalisation *)

(** The common part of both normalisers: [float(obj) if obj % 1 != 0 else
    int(obj)]. *)
Definition convert_decimal (d : Decimal) : result pyval :=
  r ← decimal.mod_1 d;
  nz ← decimal.ne_0 r;
  if nz : bool then VFloat <$> decimal.to_float d
  else VInt <$> decimal.to_int d.

(** [CaseManager._convert_decimals] of [case_utils.py]. *)
Fixpoint _convert_decimals (obj : pyval) : result pyval :=
  match obj with
  | VDecimal d => convert_decimal d
  | VDict items =>
      VDict <$>
        (fix go (kvs : dict) : result dict :=
           match kvs with
           | [] => Ok []
           | (k, v) :: rest =>
               v' ← _convert_decimals v;
               rest' ← go rest;
               Ok ((k, v') :: rest')
           end) items
  | VList items =>
      VList <$>
        (fix go (vs : list pyval) : result (list pyval) :=
           match vs with
           | [] => Ok []
           | v :: rest =>
               v' ← _convert_decimals v;
               rest' ← go rest;
               Ok (v' :: rest')
           end) items
  | _ => Ok obj
  end.

(** [convert_decimals] of [app.py]: as above, and a [set] becomes the
    [list] of its normalised elements. *)
Fixpoint convert_decimals (obj : pyval) : result pyval :=
  match obj with
  | VDecimal d => convert_decimal d
  | VDict items =>
      VDict <$>
        (fix go (kvs : dict) : result dict :=
           match kvs with
           | [] => Ok []
           | (k, v) :: rest =>
               v' ← convert_decimals v;
               rest' ← go rest;
               Ok ((k, v') :: rest')
           end) items
  | VList items =>
      VList <$>
        (fix go (vs : list pyval) : result (list pyval) :=
           match vs with
           | [] => Ok []
           | v :: rest =>
               v' ← convert_decimals v;
               rest' ← go rest;
               Ok (v' :: rest')
           end) items
  | VSet items =>
      VList <$>
        (fix go (vs : list pyval) : result (list pyval) :=
           match vs with
           | [] => Ok []
           | v :: rest =>
               v' ← convert_decimals v;
               rest' ← go rest;
               Ok (v' :: rest')
           end) items
  | _ => Ok obj
  end.

(** ** Safe nested lookup *)

(** The loop of [safe_get]: one step per key, leaving with [None] (the
    [return default] of the [else] branch) as soon as the current value is
    not a [dict] or lacks the key. *)
Fixpoint walk (current : pyval) (keys : list string) : option pyval :=
  match keys with
  | [] => Some current
  | k :: rest =>
      match current with
      | VDict items =>
          match dict_get k items with
          | Some v => walk v rest
          | None => None
          end
      | _ => None
      end
  end.

Definition is_dict (v : pyval) : bool :=
  match v with VDict _ => true | _ => false end.

Definition is_none (v : pyval) : bool :=
  match v with VNone => true | _ => false end.

(** [safe_get] of [app.py]. *)
Definition safe_get (data : pyval) (key : string) (default : pyval)
  : result pyval :=
  if negb (is_dict data) then Ok default
  else
    let keys := split "." key in
    match walk data keys with
    | None => Ok default
    | Some current =>
        if negb (is_none current) then convert_decimals current
        else Ok default
    end.

(** ** What the sources take from the interpreter and its host *)

(** [str.lower] follows Unicode case mappings, [str(v)] of a value that is
    not a [str] is its printed form, local time depends on the host's time
    zone and a [float] timestamp is first rounded to microseconds: the
    functions below are generic in all four. *)
Class Runtime : Type := {
  str_lower : string -> string;
  (** [str(v)] for [v] not a [str] *)
  repr : pyval -> string;
  (** offset of local time from UTC, in seconds, at a given epoch second *)
  utcoffset : Z -> Z;
  (** whole epoch seconds of a [float] timestamp; raises on NaN and
      infinities *)
  float_seconds : spec_float -> result Z
}.

(** [str(v)]. *)
Definition str `{Runtime} (v : pyval) : string :=
  match v with
  | VStr s => s
  | _ => repr v
  end.

(** [str(n)] of an [int], which is also how C prints it with [%d]. *)
Definition int_str (n : Z) : string :=
  DecimalString.NilZero.string_of_int (Z.to_int n).

(** ** The [datetime] module, as of Python 3.11 on Linux *)

Module datetime.

(** The fields of a [datetime], and the UTC offset of an aware one in
    microseconds. *)
Record datetime : Type := {
  year : Z; month : Z; day : Z;
  hour : Z; minute : Z; second : Z; microsecond : Z;
  tzinfo : option Z
}.

Definition is_leap (y : Z) : bool :=
  (y mod 4 =? 0) && (negb (y mod 100 =? 0) || (y mod 400 =? 0)).

Definition days_in_month (y m : Z) : Z :=
  if m =? 2 then (if is_leap y then 29 else 28)
  else if (m =? 4) || (m =? 6) || (m =? 9) || (m =? 11) then 30
  else 31.

(** Proleptic Gregorian date of a day number counted from 1970-01-01. *)
Definition civil_from_days (days : Z) : Z * Z * Z :=
  let z := days + 719468 in
  let era := z / 146097 in
  let doe := z - era * 146097 in
  let yoe := (doe - doe / 1460 + doe / 36524 - doe / 146096) / 365 in
  let doy := doe - (365 * yoe + yoe / 4 - yoe / 100) in
  let mp := (5 * doy + 2) / 153 in
  let d := doy - (153 * mp + 2) / 5 + 1 in
  let m := if mp <? 10 then mp + 3 else mp - 9 in
  let y := yoe + era * 400 + (if m <=? 2 then 1 else 0) in
  (y, m, d).

(** *** [datetime.fromtimestamp] *)

(** The broken-down time of C: year, month, day, hour, minute, second. *)
Abbreviation tm := (Z * Z * Z * Z * Z * Z)%type.

(** The year fits the C [int] field [tm_year], which counts from 1900. *)
Definition tm_year_fits (y : Z) : bool :=
  (- 2 ^ 31 <=? y - 1900) && (y - 1900 <? 2 ^ 31).

(** [tm_year + 1900] in C [int] arithmetic. *)
Definition wrap_int (n : Z) : Z := (n + 2 ^ 31) mod 2 ^ 32 - 2 ^ 31.

(** [_PyTime_localtime]: the C library's [localtime_r], which fails when
    the year of the instant, in UTC or in local time, does not fit. *)
Definition localtime `{Runtime} (t : Z) : result tm :=
  let local := t + utcoffset t in
  let '(y_utc, _, _) := civil_from_days (t / 86400) in
  let '(y, m, d) := civil_from_days (local / 86400) in
  let secs := local mod 86400 in
  if tm_year_fits y_utc && tm_year_fits y then
    Ok (wrap_int y, m, d, secs / 3600, secs mod 3600 / 60, secs mod 60)
  else
    Raise (Exn "OSError" "[Errno 75] Value too large for defined data type").

(** Seconds since 1970-01-01 of a day number and a time of day. *)
Definition days_before_year (y : Z) : Z :=
  (y - 1) * 365 + (y - 1) / 4 - (y - 1) / 100 + (y - 1) / 400 - 719162.

Definition days_before_month (y m : Z) : Z :=
  fold_left (fun acc k => acc + days_in_month y k)
    (firstn (Z.to_nat (m - 1)) [1; 2; 3; 4; 5; 6; 7; 8; 9; 10; 11]) 0.

(** [utc_to_seconds]: the fields as seconds since 1970-01-01, for a year
    that a [datetime] can hold. *)
Definition utc_to_seconds (fields : tm) : result Z :=
  let '(y, m, d, hh, mm, ss) := fields in
  if (1 <=? y) && (y <=? 9999) then
    Ok ((days_before_year y + days_before_month y m + d - 1) * 86400
        + hh * 3600 + mm * 60 + ss)
  else
    Raise (Exn "ValueError" ("year " +:+ int_str y +:+ " is out of range")).

(** [local(u)]: the local time of an instant, in seconds. *)
Definition local `{Runtime} (u : Z) : result Z :=
  fields ← localtime u;
  utc_to_seconds fields.

Definition max_fold_seconds : Z := 24 * 3600.

(** [datetime.fromtimestamp(t)] for whole seconds [t]: naive local time.
    To tell whether the local time is the second of two equal readings
    of the clock, the local time of the instant 24 hours earlier is
    computed too, and must be within the years 1 to 9999 as well. *)
Definition fromtimestamp `{Runtime} (t : Z) : result datetime :=
  if (- 2 ^ 63 <=? t) && (t <? 2 ^ 63) then
    fields ← localtime t;
    result_seconds ← utc_to_seconds fields;
    probe_seconds ← local (t - max_fold_seconds);
    let transition := result_seconds - probe_seconds - max_fold_seconds in
    _ ← (if transition <? 0 then local (t + transition) else Ok 0);
    let '(y, m, d, hh, mm, ss) := fields in
    Ok {| year := y; month := m; day := d;
          hour := hh; minute := mm; second := ss; microsecond := 0;
          tzinfo := None |}
  else
    Raise (Exn "OverflowError" "timestamp out of range for platform time_t").

(** *** [datetime.fromisoformat]

    The parser of the interpreter works on the UTF-8 bytes of the string,
    which end with a NUL byte.  It takes the calendar and the week forms
    of a date, with or without dashes, then after any one character a
    time of day and an offset from UTC. *)

(** The byte at a position; past the end, the terminating NUL. *)
Definition byte_at (s : string) (i : nat) : ascii :=
  match String.get i s with
  | Some c => c
  | None => zero
  end.

Definition is_digit (c : ascii) : bool :=
  let n := N_of_ascii c in (N.leb 48 n && N.leb n 57)%N.

(** [parse_digits]: exactly [n] digits from position [p]; their value
    on top of [acc], and the position after them. *)
Fixpoint parse_digits (s : string) (p : nat) (n : nat) (acc : Z)
  : option (Z * nat) :=
  match n with
  | O => Some (acc, p)
  | Datatypes.S n' =>
      let c := byte_at s p in
      if is_digit c
      then parse_digits s (Datatypes.S p) n'
             (10 * acc + (Z.of_N (N_of_ascii c) - 48))
      else None
  end.

(** The position after the run of digits that starts at [idx]. *)
Fixpoint skip_digits (s : string) (idx : nat) (fuel : nat) : nat :=
  match fuel with
  | O => idx
  | Datatypes.S fuel' =>
      if is_digit (byte_at s idx) then skip_digits s (Datatypes.S idx) fuel'
      else idx
  end.

(** [_find_isoformat_datetime_separator]: where the date ends, in a
    string of [len] bytes, at least 7. *)
Definition find_isoformat_datetime_separator (s : string) (len : nat)
  : option nat :=
  if (len =? 7)%nat then Some 7%nat
  else if Ascii.eqb (byte_at s 4) "-" then
    if Ascii.eqb (byte_at s 5) "W" then
      if (len <? 8)%nat then None
      else if (8 <? len)%nat && Ascii.eqb (byte_at s 8) "-" then
        if (len =? 9)%nat then None
        else if (10 <? len)%nat && is_digit (byte_at s 10) then Some 8%nat
        else Some 10%nat
      else Some 8%nat
    else Some 10%nat
  else if Ascii.eqb (byte_at s 4) "W" then
    let idx := skip_digits s 7 (len - 7) in
    if (idx <? 9)%nat then Some idx
    else if Nat.even idx then Some 7%nat
    else Some 8%nat
  else Some 8%nat.

(** [iso_to_ymd]: the date of a day of an ISO week.  Week 53 exists in
    the years that start on a Thursday and in the leap years that start
    on a Wednesday.  No week date of the year 0 is accepted. *)
Definition iso_to_ymd (iso_year iso_week iso_day : Z) : option (Z * Z * Z) :=
  (* weekday of 1 January, Monday being 0 *)
  let first_weekday := (days_before_year iso_year + 3) mod 7 in
  if iso_year <? 1 then None
  else if ((iso_week <=? 0) || (53 <=? iso_week)) &&
          negb ((iso_week =? 53) &&
                ((first_weekday =? 3) ||
                 ((first_weekday =? 2) && is_leap iso_year)))
  then None
  else if (iso_day <=? 0) || (8 <=? iso_day) then None
  else
    let week1_monday :=
      days_before_year iso_year - first_weekday
      + (if 3 <? first_weekday then 7 else 0) in
    Some (civil_from_days (week1_monday + (iso_week - 1) * 7 + iso_day - 1)).

(** [parse_isoformat_date] on the first [len] bytes. *)
Definition parse_isoformat_date (s : string) (len : nat)
  : option (Z * Z * Z) :=
  '(year, p) ← parse_digits s 0 4 0;
  let uses_separator := Ascii.eqb (byte_at s p) "-" in
  let p := if uses_separator then Datatypes.S p else p in
  if Ascii.eqb (byte_at s p) "W" then
    '(iso_week, p) ← parse_digits s (Datatypes.S p) 2 0;
    if (p <? len)%nat then
      if uses_separator && negb (Ascii.eqb (byte_at s p) "-") then None
      else
        let p := if uses_separator then Datatypes.S p else p in
        '(iso_day, _) ← parse_digits s p 1 0;
        iso_to_ymd year iso_week iso_day
    else iso_to_ymd year iso_week 1
  else
    '(month, p) ← parse_digits s p 2 0;
    if uses_separator && negb (Ascii.eqb (byte_at s p) "-") then None
    else
      let p := if uses_separator then Datatypes.S p else p in
      '(day, _) ← parse_digits s p 2 0;
      Some (year, month, day).

(** The fraction of [parse_hh_mm_ss_ff], from position [p]: up to six
    digits are read, further digits are skipped.  The flag tells whether
    the byte reached is something else than NUL. *)
Definition parse_fraction (s : string) (p p_end : nat) : option (Z * bool) :=
  let len_remains := (p_end - p)%nat in
  let to_parse := Nat.min len_remains 6 in
  '(us, p) ← parse_digits s p to_parse 0;
  let us := us * 10 ^ Z.of_nat (6 - to_parse) in
  let p := skip_digits s p (String.length s - p) in
  Some (us, negb (Ascii.eqb (byte_at s p) zero)).

(** The loop of [parse_hh_mm_ss_ff] over hour, minute and second, [i]
    of them being read already. *)
Fixpoint parse_components (s : string) (p p_end : nat) (i : nat)
    (has_separator : bool) (vals : list Z) (fuel : nat)
  : option (list Z * Z * bool) :=
  match fuel with
  | O => us_rv ← parse_fraction s p p_end; Some (vals, fst us_rv, snd us_rv)
  | Datatypes.S fuel' =>
      '(v, p) ← parse_digits s p 2 0;
      let vals := (vals ++ [v])%list in
      let c := byte_at s p in
      let p := Datatypes.S p in
      let has_separator :=
        if (i =? 0)%nat then Ascii.eqb c ":" else has_separator in
      if (p_end <=? p)%nat then Some (vals, 0, negb (Ascii.eqb c zero))
      else if has_separator && Ascii.eqb c ":" then
        parse_components s p p_end (Datatypes.S i) has_separator vals fuel'
      else if Ascii.eqb c "." || Ascii.eqb c "," then
        us_rv ← parse_fraction s p p_end; Some (vals, fst us_rv, snd us_rv)
      else if negb has_separator then
        parse_components s (p - 1) p_end (Datatypes.S i) has_separator vals
          fuel'
      else None
  end.

(** [parse_hh_mm_ss_ff] between [p] and [p_end]: hour, minute, second,
    microsecond, and whether something is left. *)
Definition parse_hh_mm_ss_ff (s : string) (p p_end : nat)
  : option (Z * Z * Z * Z * bool) :=
  '(vals, us, rest) ← parse_components s p p_end 0 true [] 3;
  Some (nth 0 vals 0, nth 1 vals 0, nth 2 vals 0, us, rest).

(** The first position from [p] on that holds [Z], [+] or [-]; the
    position [p] is looked at even when it is the end. *)
Fixpoint find_tzinfo (s : string) (p p_end : nat) (fuel : nat) : nat :=
  let c := byte_at s p in
  if Ascii.eqb c "Z" || Ascii.eqb c "+" || Ascii.eqb c "-" then p
  else
    match fuel with
    | O => Datatypes.S p
    | Datatypes.S fuel' =>
        if (Datatypes.S p <? p_end)%nat
        then find_tzinfo s (Datatypes.S p) p_end fuel'
        else Datatypes.S p
    end.

(** [parse_isoformat_time] between [p] and [p_end]: the time of day and
    the offset from UTC in microseconds, if there is one; an offset of
    zero whole seconds counts as UTC. *)
Definition parse_isoformat_time (s : string) (p p_end : nat)
  : option (Z * Z * Z * Z * option Z) :=
  let tzinfo_pos := find_tzinfo s p p_end (p_end - p) in
  '(hh, mm, ss, us, rest) ← parse_hh_mm_ss_ff s p tzinfo_pos;
  if (tzinfo_pos =? p_end)%nat then
    if negb rest then Some (hh, mm, ss, us, None) else None
  else if Ascii.eqb (byte_at s tzinfo_pos) "Z" then
    if Ascii.eqb (byte_at s (Datatypes.S tzinfo_pos)) zero
    then Some (hh, mm, ss, us, Some 0)
    else None
  else
    let negative := Ascii.eqb (byte_at s tzinfo_pos) "-" in
    '(tzh, tzm, tzs, tzus, rest) ←
       parse_hh_mm_ss_ff s (Datatypes.S tzinfo_pos) p_end;
    if negb rest then
      let seconds := tzh * 3600 + tzm * 60 + tzs in
      let offset :=
        if seconds =? 0 then 0
        else if negative then - (seconds * 1000000 + tzus)
        else seconds * 1000000 + tzus in
      Some (hh, mm, ss, us, Some offset)
    else None.

(** Number of bytes of the separator character, from its first byte. *)
Definition separator_width (c : ascii) : nat :=
  let n := N_of_ascii c in
  if (N.land n 128 =? 0)%N then 1%nat
  else if (N.land n 240 =? 240)%N then 4%nat
  else if (N.land n 240 =? 224)%N then 3%nat
  else 2%nat.

(** The checks of the [datetime] and of the [timezone] constructor. *)
Definition valid_fields (y m d hh mm ss : Z) (tz : option Z) : bool :=
  (1 <=? y) && (y <=? 9999) && (1 <=? m) && (m <=? 12) &&
  (1 <=? d) && (d <=? days_in_month y m) &&
  (0 <=? hh) && (hh <=? 23) && (0 <=? mm) && (mm <=? 59) &&
  (0 <=? ss) && (ss <=? 59) &&
  match tz with
  | Some off => (- 86400000000 <? off) && (off <? 86400000000)
  | None => true
  end.

(** [datetime.fromisoformat(s)]; [None] when it raises, which is always
    a [ValueError]. *)
Definition fromisoformat (s : string) : option datetime :=
  let len := String.length s in
  if (len <? 7)%nat then None
  else
    separator_location ← find_isoformat_datetime_separator s len;
    '(y, m, d) ← parse_isoformat_date s separator_location;
    '(hh, mm, ss, us, tz) ←
      (if (separator_location <? len)%nat then
         let p := (separator_location
                   + separator_width (byte_at s separator_location))%nat in
         parse_isoformat_time s p len
       else Some (0, 0, 0, 0, None));
    if valid_fields y m d hh mm ss tz then
      Some {| year := y; month := m; day := d;
              hour := hh; minute := mm; second := ss; microsecond := us;
              tzinfo := tz |}
    else None.

(** *** [strftime('%Y-%m-%d %H:%M:%S')] *)

Definition digit_char (n : Z) : ascii :=
  ascii_of_N (Z.to_N (48 + n mod 10)).

Definition pad2 (n : Z) : string :=
  String (digit_char (n / 10)) (String (digit_char n) EmptyString).

(** The C library of Linux prints the year of [%Y] without padding: 999
    is [999], not [0999]. *)
Definition strftime (dt : datetime) : string :=
  int_str (year dt) +:+ "-" +:+ pad2 (month dt) +:+ "-" +:+ pad2 (day dt)
  +:+ " " +:+
  pad2 (hour dt) +:+ ":" +:+ pad2 (minute dt) +:+ ":" +:+ pad2 (second dt).

End datetime.

(** [format_timestamp] of [app.py].  [bool] is a subclass of [int], so
    [True] and [False] take the numeric branch. *)
Definition format_timestamp `{Runtime} (timestamp : pyval) : result string :=
  match timestamp with
  | VInt n => datetime.strftime <$> datetime.fromtimestamp n
  | VBool b => datetime.strftime <$> datetime.fromtimestamp (if b then 1 else 0)
  | VFloat f =>
      t ← float_seconds f;
      datetime.strftime <$> datetime.fromtimestamp t
  | VStr s =>
      match datetime.fromisoformat (replace "Z" "+00:00" s) with
      | Some dt => Ok (datetime.strftime dt)
      | None => Ok s
      end
  | _ => Ok (str timestamp)
  end.

(** A host for evaluating examples: ASCII lower-casing, UTC local time. *)
Definition ascii_lower (c : ascii) : ascii :=
  let n := N_of_ascii c in
  if (N.leb 65 n && N.leb n 90)%N then ascii_of_N (n + 32) else c.

Fixpoint lower (s : string) : string :=
  match s with
  | EmptyString => EmptyString
  | String c rest => String (ascii_lower c) (lower rest)
  end.

Definition repr_scalar (v : pyval) : string :=
  match v with
  | VNone => "None"
  | VBool true => "True"
  | VBool false => "False"
  | VStr s => s
  | _ => "<object>"
  end.

(** [round(x)] of a finite [float], ties going to the even integer. *)
Definition round_half_even (x : spec_float) : Z :=
  match x with
  | S754_finite s m e =>
      let n :=
        if 0 <=? e then Z.pos m * 2 ^ e
        else
          let q := Z.pos m / 2 ^ (- e) in
          let twice_rest := 2 * (Z.pos m mod 2 ^ (- e)) in
          if (2 ^ (- e) <? twice_rest) ||
             ((twice_rest =? 2 ^ (- e)) && Z.odd q)
          then q + 1 else q in
      if s then - n else n
  | _ => 0
  end.

(** The seconds that [datetime.fromtimestamp] takes from a [float]
    ([_PyTime_ObjectToTimeval] with [ROUND_HALF_EVEN]): the value is cut
    into its integral and its fractional part, the fraction is
    multiplied by a million in double precision and rounded to whole
    microseconds, and a carry or a borrow goes to the seconds. *)
Definition float_to_time_t (d : spec_float) : result Z :=
  match d with
  | S754_nan => Raise (Exn "ValueError" "Invalid value NaN (not a number)")
  | S754_infinity _ =>
      Raise (Exn "OverflowError" "timestamp out of range for platform time_t")
  | S754_zero _ => Ok 0
  | S754_finite s m e =>
      (* modf *)
      let magnitude :=
        if 0 <=? e then Z.pos m * 2 ^ e else Z.pos m / 2 ^ (- e) in
      let intpart := if s then - magnitude else magnitude in
      let floatpart :=
        if 0 <=? e then S754_zero s
        else
          match Z.pos m mod 2 ^ (- e) with
          | Z.pos rest => S754_finite s rest e
          | _ => S754_zero s
          end in
      let floatpart :=
        round_half_even
          (SFmul 53 1024 floatpart (S754_finite false 1000000 0)) in
      let intpart :=
        if 1000000 <=? floatpart then intpart + 1
        else if floatpart <? 0 then intpart - 1
        else intpart in
      (* the bounds are compared as doubles, and the largest [time_t] is
         then 2^63, which the conversion to [time_t] wraps *)
      if (- 2 ^ 63 <=? intpart) && (intpart <=? 2 ^ 63) then
        Ok (if intpart =? 2 ^ 63 then - 2 ^ 63 else intpart)
      else
        Raise
          (Exn "OverflowError" "timestamp out of range for platform time_t")
  end.

Definition host (offset : Z) : Runtime := {|
  str_lower := lower;
  repr := repr_scalar;
  utcoffset := fun _ => offset;
  float_seconds := float_to_time_t
|}.

(** ** Effects of the store gateway: a store, a log, exceptions *)

Inductive level : Type := INFO | ERROR.

Section Effects.
(** The state of whatever stands behind the client. *)
Context {S : Type}.

Record world : Type := World {
  store : S;
  logs : list (level * string)
}.

(** A computation that reads and writes the world and either returns or
    raises. *)
Definition M (A : Type) : Type := world -> result A * world.

Definition ret {A} (a : A) : M A := fun w => (Ok a, w).

Definition raise {A} (e : exn) : M A := fun w => (Raise e, w).

Definition seq {A B} (m : M A) (k : A -> M B) : M B := fun w =>
  match m w with
  | (Ok a, w') => k a w'
  | (Raise e, w') => (Raise e, w')
  end.

(** A pure step that may raise. *)
Definition lift {A} (r : result A) : M A := fun w => (r, w).

(** [try: body / except Exception as e: handler]. *)
Definition try_except {A} (body : M A) (handler : exn -> M A) : M A :=
  fun w =>
    match body w with
    | (Ok a, w') => (Ok a, w')
    | (Raise e, w') => handler e w'
    end.

Definition logger (l : level) (msg : string) : M unit := fun w =>
  (Ok tt, {| store := store w; logs := logs w ++ [(l, msg)] |}).

(** *** The client interface

    What [CaseManager] asks of [aws_client]: [get_table(name)] gives an
    object with [scan()] and [update_item] with keyword arguments. *)
Record update_item_kwargs : Type := {
  Key : dict;
  UpdateExpression : string;
  ExpressionAttributeNames : list (string * string);
  ExpressionAttributeValues : dict
}.

Record Table : Type := {
  scan : M pyval;
  update_item : update_item_kwargs -> M pyval
}.

Record AWSClient : Type := {
  get_table : string -> M Table
}.

(** [AWSClient.get_table] of [aws_client.py] over a resource whose
    [Table(name)] followed by [.table_status] is [describe].  The clause
    [except ClientError as e] takes the instances of [ClientError], which
    are those of its subclasses too: [isinstance_ClientError] tells them.
    Such an exception is logged and raised again. *)
Definition AWSClient_get_table (isinstance_ClientError : exn -> bool)
    (describe : string -> M Table) (table_name : string) : M Table :=
  try_except (describe table_name)
    (fun e =>
       if isinstance_ClientError e then
         seq (logger ERROR
                ("Error accessing table " +:+ table_name +:+ ": "
                 +:+ exn_str e))
             (fun _ => raise e)
       else raise e).

(** *** Built-ins used on the scan response *)

(** The name of the type of a value, as error messages give it. *)
Definition type_name (v : pyval) : string :=
  match v with
  | VNone => "NoneType"
  | VBool _ => "bool"
  | VInt _ => "int"
  | VFloat _ => "float"
  | VDecimal _ => "decimal.Decimal"
  | VStr _ => "str"
  | VList _ => "list"
  | VSet _ => "set"
  | VDict _ => "dict"
  end.

(** [obj.get(key, default)]: only a [dict] has the method. *)
Definition get_method (obj : pyval) (key : string) (default : pyval)
  : result pyval :=
  match obj with
  | VDict items => Ok (get_default items key default)
  | _ =>
      Raise (Exn "AttributeError"
               ("'" +:+ type_name obj +:+ "' object has no attribute 'get'"))
  end.

Fixpoint chars (s : string) : list pyval :=
  match s with
  | EmptyString => []
  | String c rest => VStr (String c EmptyString) :: chars rest
  end.

(** The elements a [for] loop visits. *)
Definition iter (obj : pyval) : result (list pyval) :=
  match obj with
  | VList items => Ok items
  | VSet items => Ok items
  | VDict items => Ok (map (fun kv => VStr (fst kv)) items)
  | VStr s => Ok (chars s)
  | _ =>
      Raise (Exn "TypeError"
               ("'" +:+ type_name obj +:+ "' object is not iterable"))
  end.

(** [for case in cases: converted_cases.append(f(case))]. *)
Fixpoint for_append (f : pyval -> result pyval) (cases : list pyval)
  : result (list pyval) :=
  match cases with
  | [] => Ok []
  | case :: rest =>
      converted_case ← f case;
      converted_cases ← for_append f rest;
      Ok (converted_case :: converted_cases)
  end.

(** *** [class CaseManager] of [case_utils.py]: the methods that use the
    client *)

Variable aws_client : AWSClient.

Definition table_name : string := "HealthCareCases".

(** The body of the [try] of [get_all_cases]. *)
Definition get_all_cases_body : M (list pyval) :=
  seq (get_table aws_client table_name) (fun table =>
  seq (scan table) (fun response =>
  lift (cases ← get_method response "Items" (VList []);
        cases ← iter cases;
        for_append _convert_decimals cases))).

Definition get_all_cases : M (list pyval) :=
  try_except get_all_cases_body
    (fun e =>
       seq (logger ERROR ("Error fetching cases: " +:+ exn_str e))
           (fun _ => ret [])).

Definition status_update (case_id new_status : string)
  : update_item_kwargs := {|
  Key := [("caseID", VStr case_id)];
  UpdateExpression := "SET #status = :new_status";
  ExpressionAttributeNames := [("#status", "status")];
  ExpressionAttributeValues := [(":new_status", VStr new_status)]
|}.

(** The body of the [try] of [update_case_status]. *)
Definition update_case_status_body (case_id new_status : string) : M bool :=
  seq (get_table aws_client table_name) (fun table =>
  seq (update_item table (status_update case_id new_status)) (fun _ =>
  seq (logger INFO
         ("Case " +:+ case_id +:+ " updated to " +:+ new_status)) (fun _ =>
  ret true))).

Definition update_case_status (case_id new_status : string) : M bool :=
  try_except (update_case_status_body case_id new_status)
    (fun e =>
       seq (logger ERROR
              ("Error updating case " +:+ case_id +:+ ": " +:+ exn_str e))
           (fun _ => ret false)).

End Effects.

Arguments world S : clear implicits.
Arguments M S A : clear implicits.
Arguments Table S : clear implicits.
Arguments AWSClient S : clear implicits.

(** ** [class CaseManager]: the pure methods *)

(** The [filters] argument of [filter_cases]: [filters.get(k)] for the four
    keys the method reads, [None] for a key that is absent. *)
Record Filters : Type := {
  status : option (list string);
  document_type : option (list string);
  priority : option (list string);
  search_term : option string
}.

Definition search_fields : list string :=
  ["patientName"; "fileName"; "documentType"; "caseSummary";
   "diagnosisDescription"].

Definition _case_matches_search `{Runtime} (case : dict) (search_term : string)
  : bool :=
  existsb
    (fun field =>
       contains search_term (str_lower (str (get_default case field (VStr "")))))
    search_fields.

Definition filter_cases `{Runtime} (cases : list dict) (filters : Filters)
  : list dict :=
  let filtered := cases in
  let filtered :=
    match status filters with
    | Some ((_ :: _) as allowed) =>
        List.filter (fun c => in_strs (get c "status") allowed) filtered
    | _ => filtered
    end in
  let filtered :=
    match document_type filters with
    | Some ((_ :: _) as allowed) =>
        List.filter (fun c => in_strs (get c "documentType") allowed) filtered
    | _ => filtered
    end in
  let filtered :=
    match priority filters with
    | Some ((_ :: _) as allowed) =>
        List.filter (fun c => in_strs (get c "priority") allowed) filtered
    | _ => filtered
    end in
  let filtered :=
    match search_term filters with
    | Some ((String _ _) as term) =>
        let search_term := str_lower term in
        List.filter (fun c => _case_matches_search c search_term) filtered
    | _ => filtered
    end in
  filtered.

Record Metrics : Type := {
  total_cases : nat;
  pending_cases : nat;
  high_priority : nat;
  approved_cases : nat
}.

Definition get_case_metrics (cases : list dict) : Metrics := {|
  total_cases := length cases;
  pending_cases :=
    length (List.filter (fun c => eq_str (get c "status") "PENDING_REVIEW") cases);
  high_priority :=
    length (List.filter (fun c => eq_str (get c "priority") "HIGH") cases);
  approved_cases :=
    length (List.filter (fun c => eq_str (get c "status") "APPROVED") cases)
|}.

(** ** The test doubles of [tests/test_app.py] *)

(** [MockTable]: [scan] answers [{'Items': []}] and [update_item] answers
    [{}], whatever the arguments. *)
Definition MockTable {S} : Table S := {|
  scan := ret (VDict [("Items", VList [])]);
  update_item := fun _ => ret (VDict [])
|}.

Definition MockAWSClient {S} : AWSClient S := {|
  get_table := fun _ => ret MockTable
|}.

(** ** A table that holds records *)

(** A table keyed by [caseID] with the behaviour of the service's
    [UpdateItem] for the request [update_case_status] sends: the named
    attribute is set on the item with the given key, and an item with only
    the key and that attribute is stored when there was none.  A request
    without a string [caseID], or with an unbound placeholder, is rejected
    and leaves the table as it was. *)
Abbreviation items := (gmap string dict).

Fixpoint set_attr (name : string) (v : pyval) (d : dict) : dict :=
  match d with
  | [] => [(name, v)]
  | (k, old) :: rest =>
      if String.eqb k name then (k, v) :: rest
      else (k, old) :: set_attr name v rest
  end.

Fixpoint assoc (k : string) (l : list (string * string)) : option string :=
  match l with
  | [] => None
  | (k', v) :: rest => if String.eqb k' k then Some v else assoc k rest
  end.

Definition keyed_update_item (kw : update_item_kwargs) : M items pyval :=
  fun w =>
    match dict_get "caseID" (Key kw),
          assoc "#status" (ExpressionAttributeNames kw),
          dict_get ":new_status" (ExpressionAttributeValues kw) with
    | Some (VStr id), Some attr, Some v =>
        if String.eqb (UpdateExpression kw) "SET #status = :new_status" then
          let item := default [("caseID", VStr id)] (store w !! id) in
          (Ok (VDict []),
           {| store := <[id := set_attr attr v item]> (store w);
              logs := logs w |})
        else (Raise (Exn "ClientError" "ValidationException"), w)
    | _, _, _ => (Raise (Exn "ClientError" "ValidationException"), w)
    end.

Definition keyed_scan : M items pyval := fun w =>
  (Ok (VDict [("Items", VList (VDict <$> (map_to_list (store w)).*2))]), w).

Definition KeyedTable : Table items := {|
  scan := keyed_scan;
  update_item := keyed_update_item
|}.

(** The exception is of the class [ClientError] itself. *)
Definition is_ClientError (e : exn) : bool :=
  match e with Exn cls _ => String.eqb cls "ClientError" end.

(** The client over a resource that knows the one table. *)
Definition keyed_client : AWSClient items := {|
  get_table :=
    AWSClient_get_table is_ClientError (fun name =>
      if String.eqb name "HealthCareCases" then ret KeyedTable
      else raise (Exn "ClientError" "ResourceNotFoundException"))
|}.

(** A client whose resource has no such table: [get_table] logs and
    raises [ClientError]. *)
Definition missing_table_client {S} : AWSClient S := {|
  get_table :=
    AWSClient_get_table is_ClientError (fun _ =>
      raise (Exn "ClientError" "ResourceNotFoundException"))
|}.

(** A world with the given store and an empty log. *)
Definition w0 {S} (s : S) : world S := {| store := s; logs := [] |}.

(** ** Documents: the S3 methods of [AWSClient] in [aws_client.py] *)

(** [s[n:]]. *)
Fixpoint drop_chars (n : nat) (s : string) : string :=
  match n, s with
  | O, _ => s
  | Datatypes.S n', String _ rest => drop_chars n' rest
  | Datatypes.S _, EmptyString => EmptyString
  end.

(** [s.split(sep, 1)]: cut at the first separator only. *)
Fixpoint split_once (sep : ascii) (s : string) : list string :=
  match s with
  | EmptyString => [EmptyString]
  | String c rest =>
      if Ascii.eqb c sep then [EmptyString; rest]
      else match split_once sep rest with
           | hd :: tl => String c hd :: tl
           | [] => [String c EmptyString]
           end
  end.

(** [if s3_location.startswith('s3://'): s3_location = s3_location[5:]]. *)
Definition strip_scheme (s3_location : string) : string :=
  if starts_with "s3://" s3_location then drop_chars 5 s3_location
  else s3_location.

(** [bucket, key = s3_location.split('/', 1)]: unpacking one element
    raises [ValueError]. *)
Definition unpack_bucket_key (s3_location : string) : result (string * string) :=
  match split_once "/" s3_location with
  | [bucket; key] => Ok (bucket, key)
  | _ =>
      Raise (Exn "ValueError" "not enough values to unpack (expected 2, got 1)")
  end.

(** [key.split('/')[-1]]. *)
Definition last_segment (key : string) : string :=
  List.last (split "/" key) EmptyString.

Fixpoint ends_with_char (c : ascii) (s : string) : bool :=
  match s with
  | EmptyString => false
  | String a EmptyString => Ascii.eqb a c
  | String _ rest => ends_with_char c rest
  end.

(** [os.path.join(a, b)] on a POSIX host. *)
Definition path_join (a b : string) : string :=
  if starts_with "/" b then b
  else if String.eqb a "" || ends_with_char "/" a then a +:+ b
  else a +:+ "/" +:+ b.

Section Documents.
Context {S : Type}.

(** The two calls made on [boto3.client('s3')]:
    [generate_presigned_url('get_object', Params={'Bucket': bucket, 'Key':
    key}, ExpiresIn=expires_in)] and
    [download_file(bucket, key, local_filename)]. *)
Record S3Client : Type := {
  generate_presigned_url : string -> string -> Z -> M S string;
  download_file : string -> string -> string -> M S unit
}.

(** [self.get_s3_client()] and [tempfile.gettempdir()]. *)
Variable get_s3_client : M S S3Client.
Variable gettempdir : string.

(** The body of the [try] of [get_document_url]. *)
Definition get_document_url_body (s3_location : string) (expires_in : Z)
  : M S string :=
  let s3_location := strip_scheme s3_location in
  seq (lift (unpack_bucket_key s3_location)) (fun bk =>
  let bucket := fst bk in
  let key := snd bk in
  seq get_s3_client (fun s3_client =>
  generate_presigned_url s3_client bucket key expires_in)).

(** [AWSClient.get_document_url]; the result is the URL or [None]. *)
Definition get_document_url (s3_location : string) (expires_in : Z)
  : M S (option string) :=
  try_except
    (seq (get_document_url_body s3_location expires_in)
         (fun url => ret (Some url)))
    (fun e =>
       seq (logger ERROR ("Error generating presigned URL: " +:+ exn_str e))
           (fun _ => ret None)).

(** The body of the [try] of [download_document]. *)
Definition download_document_body (s3_location : string) : M S string :=
  seq (lift (unpack_bucket_key s3_location)) (fun bk =>
  let bucket := fst bk in
  let key := snd bk in
  let temp_dir := gettempdir in
  let local_filename := path_join temp_dir (last_segment key) in
  seq get_s3_client (fun s3_client =>
  seq (download_file s3_client bucket key local_filename) (fun _ =>
  seq (logger INFO ("Downloaded document to: " +:+ local_filename)) (fun _ =>
  ret local_filename)))).

(** [AWSClient.download_document]; the result is the local path or
    [None].  The error record names the location as reassigned, that is
    without its scheme. *)
Definition download_document (s3_location : string) : M S (option string) :=
  let s3_location := strip_scheme s3_location in
  try_except
    (seq (download_document_body s3_location) (fun f => ret (Some f)))
    (fun e =>
       seq (logger ERROR
              ("Error downloading document " +:+ s3_location +:+ ": "
               +:+ exn_str e))
           (fun _ => ret None)).

End Documents.

Arguments S3Client S : clear implicits.

(** An S3 double that answers every request and records it in the
    store. *)
Definition recording_s3 : S3Client (list string) := {|
  generate_presigned_url := fun bucket key _ (w : world (list string)) =>
    (Ok ("https://" +:+ bucket +:+ "/" +:+ key),
     {| store := (store w ++ ["url " +:+ bucket +:+ " " +:+ key])%list;
        logs := logs w |});
  download_file := fun bucket key local_filename (w : world (list string)) =>
    (Ok tt,
     {| store := (store w ++ ["get " +:+ bucket +:+ " " +:+ key
                              +:+ " " +:+ local_filename])%list;
        logs := logs w |})
|}.

(** ** The filters the pages of [app.py] build *)

(** [dashboard_filters] of [show_dashboard_content]: the status is fixed,
    the other two come from the sidebar. *)
Definition dashboard_filters (doc_type_filter priority_filter : list string)
  : Filters := {|
  status := Some ["PENDING_REVIEW"];
  document_type := Some doc_type_filter;
  priority := Some priority_filter;
  search_term := None
|}.

(** [filters] of [show_case_list]. *)
Definition case_list_filters
    (status_filter doc_type_filter priority_filter : list string)
  : Filters := {|
  status := Some status_filter;
  document_type := Some doc_type_filter;
  priority := Some priority_filter;
  search_term := None
|}.

(** ** The date cell of [display_case_table_row] *)

(** The truth value of [if v:]. *)
Definition truthy (v : pyval) : bool :=
  match v with
  | VNone => false
  | VBool b => b
  | VInt n => negb (n =? 0)
  | VFloat f => match f with S754_zero _ => false | _ => true end
  | VDecimal d =>
      match d with decimal.Finite _ c _ => negb (N.eqb c 0) | _ => true end
  | VStr s => negb (String.eqb s "")
  | VList items => match items with [] => false | _ => true end
  | VSet items => match items with [] => false | _ => true end
  | VDict items => match items with [] => false | _ => true end
  end.

(** [upload_date = safe_get(case, 'uploadDate', '')], then the part of
    [format_timestamp(upload_date)] before its first space, or ['N/A']. *)
Definition display_date `{Runtime} (case : pyval) : result string :=
  upload_date ← safe_get case "uploadDate" (VStr "");
  if truthy upload_date then
    formatted_date ← format_timestamp upload_date;
    Ok (List.hd EmptyString (split " " formatted_date))
  else Ok "N/A".

(** ** Notions used in the statements *)

(** [sub] occurs in [s]. *)
Definition Substring (sub s : string) : Prop :=
  exists pre post, s = pre +:+ sub +:+ post.

(** [out] is [l] with exactly the elements satisfying [P] kept, in the
    order of [l]. *)
Inductive Selects {A} (P : A -> Prop) : list A -> list A -> Prop :=
| Selects_nil : Selects P [] []
| Selects_keep x l out : P x -> Selects P l out -> Selects P (x :: l) (x :: out)
| Selects_drop x l out : ~ P x -> Selects P l out -> Selects P (x :: l) out.

(** [n] elements of [l] satisfy [P]. *)
Inductive Counts {A} (P : A -> Prop) : list A -> nat -> Prop :=
| Counts_nil : Counts P [] 0%nat
| Counts_yes x l n : P x -> Counts P l n -> Counts P (x :: l) (Datatypes.S n)
| Counts_no x l n : ~ P x -> Counts P l n -> Counts P (x :: l) n.

(** The case has the field, and its value is the string [value]. *)
Definition field_is (field value : string) (c : dict) : Prop :=
  dict_get field c = Some (VStr value).

(** The text of a field as the search sees it: a missing field is the
    empty string. *)
Definition field_text `{Runtime} (c : dict) (field : string) : string :=
  match dict_get field c with
  | Some v => str v
  | None => ""
  end.

(** Criteria with every empty collection taken away. *)
Definition unset_empty (f : Filters) : Filters := {|
  status := match status f with Some [] => None | o => o end;
  document_type := match document_type f with Some [] => None | o => o end;
  priority := match priority f with Some [] => None | o => o end;
  search_term := match search_term f with Some "" => None | o => o end
|}.

Definition no_criteria : Filters :=
  {| status := None; document_type := None; priority := None;
     search_term := None |}.

(** The search criterion of the specification: the lower-cased term
    occurs in the lower-cased text of one of the five fields. *)
Definition search_matches `{Runtime} (term : string) (c : dict) : Prop :=
  exists field, In field search_fields /\
    Substring (str_lower term) (str_lower (field_text c field)).

(** Following a path of keys through nested [dict]s from [data] arrives at
    a value: every key is present and every value passed through is a
    [dict]. *)
Inductive Resolves : pyval -> list string -> pyval -> Prop :=
| Resolves_here v : Resolves v [] v
| Resolves_step items k v rest r :
    dict_get k items = Some v -> Resolves v rest r ->
    Resolves (VDict items) (k :: rest) r.

(** No [Decimal] is reachable through [dict]s and [list]s. *)
Fixpoint decimal_free (v : pyval) : bool :=
  match v with
  | VDecimal _ => false
  | VList items => forallb decimal_free items
  | VDict items => forallb (fun kv => decimal_free (snd kv)) items
  | _ => true
  end.

(** Structural induction on values, through the nested lists. *)
Section pyval_induction.
Variable P : pyval -> Prop.
Hypothesis HNone : P VNone.
Hypothesis HBool : forall b, P (VBool b).
Hypothesis HInt : forall n, P (VInt n).
Hypothesis HFloat : forall f, P (VFloat f).
Hypothesis HDecimal : forall d, P (VDecimal d).
Hypothesis HStr : forall s, P (VStr s).
Hypothesis HList : forall items, Forall P items -> P (VList items).
Hypothesis HSet : forall items, Forall P items -> P (VSet items).
Hypothesis HDict :
  forall items, Forall (fun kv => P (snd kv)) items -> P (VDict items).

Fixpoint pyval_nested_ind (v : pyval) : P v :=
  match v with
  | VNone => HNone
  | VBool b => HBool b
  | VInt n => HInt n
  | VFloat f => HFloat f
  | VDecimal d => HDecimal d
  | VStr s => HStr s
  | VList items =>
      HList items
        ((fix go (l : list pyval) : Forall P l :=
            match l with
            | [] => @List.Forall_nil _ P
            | x :: r => @List.Forall_cons _ P x r (pyval_nested_ind x) (go r)
            end) items)
  | VSet items =>
      HSet items
        ((fix go (l : list pyval) : Forall P l :=
            match l with
            | [] => @List.Forall_nil _ P
            | x :: r => @List.Forall_cons _ P x r (pyval_nested_ind x) (go r)
            end) items)
  | VDict items =>
      HDict items
        ((fix go (l : dict) : Forall (fun kv => P (snd kv)) l :=
            match l with
            | [] => @List.Forall_nil _ _
            | kv :: r =>
                @List.Forall_cons _ (fun kv => P (snd kv)) kv r
                  (pyval_nested_ind (snd kv)) (go r)
            end) items)
  end.
End pyval_induction.

(** ** Notions used in the statements about the rest of the code *)

(** A set criterion admits a case: it is unset or empty, or the field of
    the case is one of the allowed strings. *)
Definition admits (allowed : option (list string)) (field : string) (c : dict)
  : Prop :=
  match allowed with
  | Some ((_ :: _) as l) => exists v, In v l /\ field_is field v c
  | _ => True
  end.

(** The search criterion admits a case: it is unset or empty, or the case
    matches the term. *)
Definition admits_search `{Runtime} (term : option string) (c : dict) : Prop :=
  match term with
  | Some ((String _ _) as t) => search_matches t c
  | _ => True
  end.

(** A case satisfies every criterion that is set. *)
Definition passes `{Runtime} (f : Filters) (c : dict) : Prop :=
  admits (status f) "status" c /\
  admits (document_type f) "documentType" c /\
  admits (priority f) "priority" c /\
  admits_search (search_term f) c.

(** The four guards of [filter_cases] on one case. *)
Definition keeps_in (allowed : option (list string)) (field : string) (c : dict)
  : bool :=
  match allowed with
  | Some ((_ :: _) as l) => in_strs (get c field) l
  | _ => true
  end.

Definition keeps_search `{Runtime} (term : option string) (c : dict) : bool :=
  match term with
  | Some ((String _ _) as t) => _case_matches_search c (str_lower t)
  | _ => true
  end.

Definition keeps `{Runtime} (f : Filters) (c : dict) : bool :=
  keeps_in (status f) "status" c &&
  keeps_in (document_type f) "documentType" c &&
  keeps_in (priority f) "priority" c &&
  keeps_search (search_term f) c.

(** [{k: f(v) for k, v in obj.items()}]. *)
Fixpoint for_items (f : pyval -> result pyval) (items : dict) : result dict :=
  match items with
  | [] => Ok []
  | (k, v) :: rest =>
      v' ← f v;
      rest' ← for_items f rest;
      Ok ((k, v') :: rest')
  end.

(** Neither a [Decimal] nor a [set] anywhere in the value. *)
Fixpoint native (v : pyval) : bool :=
  match v with
  | VDecimal _ => false
  | VSet _ => false
  | VList items => forallb native items
  | VDict items => forallb (fun kv => native (snd kv)) items
  | _ => true
  end.

(** No [set] is reachable through [dict]s and [list]s. *)
Fixpoint set_free (v : pyval) : bool :=
  match v with
  | VSet _ => false
  | VList items => forallb set_free items
  | VDict items => forallb (fun kv => set_free (snd kv)) items
  | _ => true
  end.

(** The decimals on which [d % 1] raises under the default context:
    infinities, signaling NaNs, and finite numbers whose integer part
    needs more than [prec] digits. *)
Definition out_of_reach (d : Decimal) : Prop :=
  match d with
  | decimal.Finite _ c e =>
      10 ^ decimal.prec <= (Z.of_N c * 10 ^ Z.max e 0) / 10 ^ Z.max (- e) 0
  | decimal.Infinity _ => True
  | decimal.NaN signaling => signaling = true
  end.

(** The calls [update_case_status] makes on the client, in their order. *)
Definition client_calls {S} (client : AWSClient S)
    (case_id new_status : string) : M S pyval :=
  seq (get_table client table_name)
      (fun table => update_item table (status_update case_id new_status)).

(** The character occurs in the string. *)
Definition has_char (c : ascii) (s : string) : Prop :=
  In c (list_ascii_of_string s).

(** * Properties *)

(** ** Strings and lists *)

Lemma starts_with_spec p s :
  starts_with p s = true <-> exists post, s = p +:+ post.
Proof.
  revert s. induction p as [|a p IH]; intros s; simpl.
  - split; [intros _; by exists s | done].
  - destruct s as [|b s].
    + split; [done | intros [post Hp]; discriminate].
    + rewrite andb_true_iff, Ascii.eqb_eq, IH. split.
      * intros [-> [post ->]]. by exists post.
      * intros [post Hp]. injection Hp as -> ->. eauto.
Qed.

Lemma contains_spec sub s : contains sub s = true <-> Substring sub s.
Proof.
  unfold Substring. induction s as [|c s IH].
  - simpl. rewrite orb_false_r, starts_with_spec. split.
    + intros [post Hp]. by exists "", post.
    + intros [pre [post Hp]]. destruct pre; [by exists post | discriminate].
  - cbn [contains]. rewrite orb_true_iff, starts_with_spec, IH. split.
    + intros [[post Hp] | [pre [post Hp]]].
      * by exists "", post.
      * exists (String c pre), post. simpl. by rewrite Hp.
    + intros [pre [post Hp]]. destruct pre as [|c' pre].
      * left. by exists post.
      * right. injection Hp as -> ->. eauto.
Qed.

Lemma Selects_filter {A} (P : A -> Prop) (f : A -> bool) l :
  (forall x, f x = true <-> P x) -> Selects P l (List.filter f l).
Proof.
  intros Hf. induction l as [|x l IH]; simpl; [constructor|].
  destruct (f x) eqn:E.
  - apply Selects_keep; [by apply Hf | done].
  - apply Selects_drop; [|done]. rewrite <- Hf, E. done.
Qed.

Lemma Selects_unique {A} (P : A -> Prop) l out1 out2 :
  Selects P l out1 -> Selects P l out2 -> out1 = out2.
Proof.
  intros H1. revert out2.
  induction H1; intros out2 H2; inversion H2; subst;
    try done; try (f_equal; eauto); eauto.
Qed.

Lemma Selects_sublist {A} (P : A -> Prop) l out :
  Selects P l out -> sublist out l.
Proof.
  induction 1; [constructor | by apply sublist_skip | by apply sublist_cons].
Qed.

Lemma Selects_In {A} (P : A -> Prop) l out :
  Selects P l out -> forall x, In x out <-> In x l /\ P x.
Proof.
  induction 1 as [|y l out Hy _ IH|y l out Hy _ IH]; intros x; simpl.
  - tauto.
  - rewrite IH. split; [intros [->|[]]; auto | tauto].
  - rewrite IH. split; [tauto | intros [[->|] ?]; tauto].
Qed.

Lemma Counts_filter {A} (P : A -> Prop) (f : A -> bool) l :
  (forall x, f x = true <-> P x) -> Counts P l (length (List.filter f l)).
Proof.
  intros Hf. induction l as [|x l IH]; simpl; [constructor|].
  destruct (f x) eqn:E; simpl.
  - apply Counts_yes; [by apply Hf | done].
  - apply Counts_no; [|done]. rewrite <- Hf, E. done.
Qed.

Lemma eq_str_field_is c field value :
  eq_str (get c field) value = true <-> field_is field value c.
Proof.
  unfold get, field_is. destruct (dict_get field c) as [v|]; simpl.
  - destruct v; simpl; try (split; [done | intros [=]]).
    rewrite String.eqb_eq. split; [by intros -> | by intros [= ->]].
  - split; [done | intros [=]].
Qed.

Lemma in_strs_singleton v s : in_strs v [s] = eq_str v s.
Proof. unfold in_strs. simpl. apply orb_false_r. Qed.

(** ** The case filter *)

(** C2: filtering with [status = {S}] as the only criterion returns
    exactly the cases of the input whose status is [S], in the input's
    order. The input list is a value and is not changed: the result is a
    new list, here the one [Selects] describes, a sublist of the input. *)
Theorem filter_cases_status_exact `{Runtime} (C : list dict) (S : string) :
  let out :=
    filter_cases C {| status := Some [S]; document_type := None;
                      priority := None; search_term := None |} in
  Selects (field_is "status" S) C out /\
  sublist out C /\
  (forall c, In c out <-> In c C /\ field_is "status" S c).
Proof.
  assert (Hsel : Selects (field_is "status" S) C
            (filter_cases C {| status := Some [S]; document_type := None;
                               priority := None; search_term := None |})).
  { unfold filter_cases. cbn [status document_type priority search_term].
    apply Selects_filter.
    intros c. rewrite in_strs_singleton. apply eq_str_field_is. }
  cbv zeta. split; [done|]. split.
  - by eapply Selects_sublist.
  - by eapply Selects_In.
Qed.

(** C9: with no criterion set the filter is the identity. *)
Theorem filter_cases_unset_identity `{Runtime} (C : list dict) :
  filter_cases C no_criteria = C.
Proof. reflexivity. Qed.

(** C10: a criterion that is present but empty restricts nothing: the
    result is the one obtained with that criterion absent, and with all
    four criteria empty the input comes back unchanged. *)
Theorem filter_cases_empty_is_unset `{Runtime} (C : list dict) (f : Filters) :
  filter_cases C f = filter_cases C (unset_empty f) /\
  filter_cases C {| status := Some []; document_type := Some [];
                    priority := Some []; search_term := Some "" |} = C.
Proof.
  split; [|reflexivity].
  destruct f as [[[|s ss]|] [[|d ds]|] [[|p ps]|] [[|a t]|]]; reflexivity.
Qed.

Lemma str_get_default_text `{Runtime} c field :
  str (get_default c field (VStr "")) = field_text c field.
Proof.
  unfold get_default, field_text. by destruct (dict_get field c).
Qed.

Lemma _case_matches_search_spec `{Runtime} c term t :
  str_lower term = t ->
  _case_matches_search c t = true <-> search_matches term c.
Proof.
  intros <-. unfold _case_matches_search, search_matches.
  rewrite existsb_exists. split.
  - intros [field [Hin Hc]]. exists field. split; [done|].
    rewrite <- str_get_default_text. by apply contains_spec.
  - intros [field [Hin Hc]]. exists field. split; [done|].
    rewrite str_get_default_text. by apply contains_spec.
Qed.

(** C7: with a non-empty search term as the only criterion, a case is
    kept exactly when the lower-cased term occurs in the lower-cased text
    of one of [patientName], [fileName], [documentType], [caseSummary],
    [diagnosisDescription], a missing field counting as the empty
    string. *)
Theorem search_term_keeps_iff `{Runtime}
    (C : list dict) (term : string) (Hterm : term <> "") :
  let out :=
    filter_cases C {| status := None; document_type := None;
                      priority := None; search_term := Some term |} in
  Selects (search_matches term) C out /\
  (forall c, In c out <-> In c C /\ search_matches term c).
Proof.
  assert (Hsel : Selects (search_matches term) C
            (filter_cases C {| status := None; document_type := None;
                               priority := None; search_term := Some term |})).
  { unfold filter_cases. cbn [status document_type priority search_term].
    destruct term as [|a t]; [done|].
    apply Selects_filter. intros c. by apply _case_matches_search_spec. }
  cbv zeta. split; [done | by eapply Selects_In].
Qed.

Lemma search_term_keeps_iff_witness :
  "LEE" <> "" /\
  Selects (@search_matches (host 0) "LEE")
    [[("patientName", VStr "Ann Lee")]; [("fileName", VStr "scan.pdf")]]
    [[("patientName", VStr "Ann Lee")]].
Proof.
  split; [done|].
  apply (@search_term_keeps_iff (host 0)
           [[("patientName", VStr "Ann Lee")]; [("fileName", VStr "scan.pdf")]]
           "LEE").
  done.
Defined.

(** ** The metrics aggregator *)

(** C5: [total_cases] is the length of the list, [pending_cases] the
    number of cases whose status is [PENDING_REVIEW], [high_priority] the
    number whose priority is [HIGH], [approved_cases] the number whose
    status is [APPROVED]; all four are 0 on the empty list. *)
Theorem get_case_metrics_counts (cases : list dict) :
  let m := get_case_metrics cases in
  total_cases m = length cases /\
  Counts (field_is "status" "PENDING_REVIEW") cases (pending_cases m) /\
  Counts (field_is "priority" "HIGH") cases (high_priority m) /\
  Counts (field_is "status" "APPROVED") cases (approved_cases m) /\
  get_case_metrics [] =
    {| total_cases := 0; pending_cases := 0; high_priority := 0;
       approved_cases := 0 |}.
Proof.
  cbv zeta. unfold get_case_metrics. cbn [total_cases pending_cases
    high_priority approved_cases].
  repeat split; apply Counts_filter; intros c; apply eq_str_field_is.
Qed.

Example get_case_metrics_two :
  get_case_metrics
    [[("status", VStr "PENDING_REVIEW"); ("priority", VStr "HIGH")];
     [("status", VStr "APPROVED"); ("priority", VStr "LOW")]] =
  {| total_cases := 2; pending_cases := 1; high_priority := 1;
     approved_cases := 1 |}.
Proof. reflexivity. Qed.

(** ** Decimal normalisation *)

Lemma ndigits_fuel_lower fuel n :
  1 <= n -> 10 ^ (decimal.ndigits_fuel fuel n - 1) <= n.
Proof.
  revert n. induction fuel as [|f IH]; intros n Hn; simpl; [lia|].
  destruct (Z.ltb_spec n 10); [simpl; lia|].
  replace (1 + decimal.ndigits_fuel f (n / 10) - 1)
    with (Z.succ (decimal.ndigits_fuel f (n / 10) - 1)) by lia.
  assert (Hq : 1 <= n / 10) by (apply Z.div_le_lower_bound; lia).
  specialize (IH _ Hq).
  assert (Hpos : 0 <= decimal.ndigits_fuel f (n / 10) - 1).
  { destruct (Z.le_gt_cases 0 (decimal.ndigits_fuel f (n / 10) - 1)); [done|].
    clear IH. revert Hq. generalize (n / 10). clear.
    induction f; intros m Hm; simpl in *; [lia|].
    destruct (Z.ltb_spec m 10); [lia|].
    assert (1 <= m / 10) by (apply Z.div_le_lower_bound; lia).
    specialize (IHf (m / 10)). lia. }
  rewrite Z.pow_succ_r by done.
  pose proof (Z.mul_div_le n 10). lia.
Qed.

Lemma ndigits_lower n : 1 <= n -> 10 ^ (decimal.ndigits n - 1) <= n.
Proof. apply ndigits_fuel_lower. Qed.

(** Rounding to the context never turns a non-zero remainder whose
    exponent is at least [Etiny] into zero. *)
Lemma fix_nonzero s c e :
  c <> 0%N -> decimal.Etiny <= e ->
  decimal.ne_0 (decimal.fix_ (decimal.Finite s c e)) = Ok true.
Proof.
  intros Hc He. unfold decimal.fix_.
  assert (Hc1 : 1 <= Z.of_N c) by lia.
  destruct (Z.eqb_spec (Z.of_N c) 0); [lia|].
  set (nd := decimal.ndigits (Z.of_N c)).
  pose proof (ndigits_lower _ Hc1) as Hlow. fold nd in Hlow.
  cbv zeta.
  generalize dependent decimal.Etiny. intros Etiny He.
  assert (Hprec : decimal.prec = 28) by reflexivity.
  generalize dependent decimal.prec. intros prec Hprec.
  destruct (Z.ltb_spec e (Z.max (nd + e - prec) Etiny)) as [Hlt|Hge].
  2:{ cbn [decimal.ne_0]. destruct c; [done|reflexivity]. }
  assert (Hmax : Z.max (nd + e - prec) Etiny = nd + e - prec)
    by lia.
  rewrite Hmax in *.
  set (k := nd + e - prec - e).
  assert (Hk : 0 < k /\ k <= nd - 1) by (unfold k in *; lia).
  assert (Hq : 1 <= Z.of_N c / 10 ^ k).
  { apply Z.div_le_lower_bound; [lia|].
    rewrite Z.mul_1_r. etransitivity; [|exact Hlow].
    apply Z.pow_le_mono_r; lia. }
  match goal with
  | |- context [if ?b then Z.of_N c / 10 ^ k + 1 else Z.of_N c / 10 ^ k] =>
      set (q' := if b then Z.of_N c / 10 ^ k + 1 else Z.of_N c / 10 ^ k)
  end.
  assert (Hq' : 1 <= q') by (unfold q'; destruct (_ || _); lia).
  destruct (Z.ltb_spec prec (decimal.ndigits q')) as [Hbig|Hsmall];
    cbn [decimal.ne_0].
  - pose proof (ndigits_lower _ Hq') as Hl.
    assert (10 ^ 1 <= q').
    { etransitivity; [|exact Hl]. apply Z.pow_le_mono_r; lia. }
    assert (1 <= q' / 10) by (apply Z.div_le_lower_bound; lia).
    destruct (Z.to_N (q' / 10)) eqn:E; [lia|reflexivity].
  - destruct (Z.to_N q') eqn:E; [lia|reflexivity].
Qed.

Lemma fix_zero s e :
  decimal.fix_ (decimal.Finite s 0 e) =
  decimal.Finite s 0 (Z.min (Z.max e decimal.Etiny) decimal.Emax).
Proof. reflexivity. Qed.

(** Within the context's reach, a decimal with zero fractional part
    becomes the [int] of the same value. *)
Lemma convert_decimal_integral s c e :
  let num := Z.of_N c * 10 ^ Z.max e 0 in
  let den := 10 ^ Z.max (- e) 0 in
  num mod den = 0 -> num / den < 10 ^ decimal.prec ->
  convert_decimal (decimal.Finite s c e) =
    Ok (VInt (if s then - (num / den) else num / den)).
Proof.
  intros num den Hmod Hq. unfold convert_decimal, decimal.mod_1.
  fold num den.
  destruct (Z.ltb_spec (num / den) (10 ^ decimal.prec)); [|lia].
  rewrite Hmod. change (Z.to_N 0) with 0%N. rewrite fix_zero.
  cbn [mbind result_bind decimal.ne_0 N.eqb negb fmap result_fmap decimal.to_int].
  do 2 f_equal.
  destruct (Z.leb_spec 0 e).
  - unfold num, den. rewrite Z.max_l, Z.max_r by lia.
    rewrite Z.pow_0_r, Z.div_1_r. done.
  - unfold num, den. rewrite Z.max_r, Z.max_l by lia.
    rewrite Z.pow_0_r, Z.mul_1_r. done.
Qed.

(** Within the context's reach, any other finite decimal becomes the
    [float] nearest to it. *)
Lemma convert_decimal_fractional s c e :
  let num := Z.of_N c * 10 ^ Z.max e 0 in
  let den := 10 ^ Z.max (- e) 0 in
  num mod den <> 0 -> num / den < 10 ^ decimal.prec -> decimal.Etiny <= e ->
  exists f, decimal.to_float (decimal.Finite s c e) = Ok f /\
            convert_decimal (decimal.Finite s c e) = Ok (VFloat f).
Proof.
  intros num den Hmod Hq He.
  assert (He0 : e < 0).
  { destruct (Z.lt_ge_cases e 0); [done|]. exfalso. apply Hmod.
    unfold den. rewrite Z.max_r by lia. apply Z.mod_1_r. }
  assert (Hf : exists f, decimal.to_float (decimal.Finite s c e) = Ok f).
  { unfold decimal.to_float. destruct (N.eqb c 0); [eauto|].
    destruct (SFdiv_core_binary _ _ _ _ _ _) as [[mz ez] lz]. eauto. }
  destruct Hf as [f Hf]. exists f. split; [done|].
  unfold convert_decimal, decimal.mod_1. fold num den.
  destruct (Z.ltb_spec (num / den) (10 ^ decimal.prec)); [|lia].
  assert (Hr : 0 <= num mod den).
  { apply Z.mod_pos_bound. unfold den. apply Z.pow_pos_nonneg; lia. }
  cbn [mbind result_bind].
  rewrite fix_nonzero; [| lia | lia].
  cbn [mbind result_bind]. rewrite Hf. reflexivity.
Qed.

(** Values without decimals come back unchanged from
    [CaseManager._convert_decimals]. *)
Lemma _convert_decimals_decimal_free v :
  decimal_free v = true -> _convert_decimals v = Ok v.
Proof.
  induction v as [| | | | |
                  |items IH|items IH|items IH] using pyval_nested_ind;
    intros Hfree; try done.
  - simpl. simpl in Hfree.
    enough (Hgo : (fix go (vs : list pyval) : result (list pyval) :=
               match vs with
               | [] => Ok []
               | v :: rest =>
                   v' ← _convert_decimals v; rest' ← go rest; Ok (v' :: rest')
               end) items = Ok items) by (by rewrite Hgo).
    induction IH as [|x r Hx _ IHr]; [done|].
    simpl in Hfree. apply andb_true_iff in Hfree as [Hx' Hr'].
    rewrite (Hx Hx'). cbn [mbind result_bind]. by rewrite (IHr Hr').
  - simpl. simpl in Hfree.
    enough (Hgo : (fix go (kvs : dict) : result dict :=
               match kvs with
               | [] => Ok []
               | (k, v) :: rest =>
                   v' ← _convert_decimals v; rest' ← go rest;
                   Ok ((k, v') :: rest')
               end) items = Ok items) by (by rewrite Hgo).
    induction IH as [|[k x] r Hx _ IHr]; [done|].
    simpl in Hfree. apply andb_true_iff in Hfree as [Hx' Hr'].
    simpl in Hx. rewrite (Hx Hx'). cbn [mbind result_bind].
    by rewrite (IHr Hr').
Qed.

Example convert_decimals_ten :
  _convert_decimals (VDecimal (decimal.Finite false 10 0)) = Ok (VInt 10) /\
  convert_decimals (VDecimal (decimal.Finite false 10 0)) = Ok (VInt 10).
Proof. split; reflexivity. Qed.

(** [10.5] becomes the binary64 number [21 * 2^-1], written here with its
    53-bit significand: [5910974510923776 * 2^-49]. *)
Example convert_decimals_ten_and_a_half :
  _convert_decimals (VDecimal (decimal.Finite false 105 (-1))) =
    Ok (VFloat (S754_finite false 5910974510923776 (-49))) /\
  convert_decimals (VDecimal (decimal.Finite false 105 (-1))) =
    Ok (VFloat (S754_finite false 5910974510923776 (-49))) /\
  (5910974510923776 = 21 * 2 ^ 48)%positive.
Proof. split; [|split]; vm_compute; reflexivity. Qed.

Example convert_decimals_nested :
  _convert_decimals
    (VDict [("confidenceScore", VDecimal (decimal.Finite false 5 (-1)));
            ("pages", VList [VDecimal (decimal.Finite false 30 (-1))])]) =
  Ok (VDict [("confidenceScore",
              VFloat (S754_finite false 4503599627370496 (-53)));
             ("pages", VList [VInt 3])]).
Proof. vm_compute. reflexivity. Qed.

(** The two normalisers differ on sets: [case_utils] leaves a set alone,
    decimals included, and [app] turns it into a list. *)
Example convert_decimals_set :
  _convert_decimals (VSet [VDecimal (decimal.Finite false 10 0)]) =
    Ok (VSet [VDecimal (decimal.Finite false 10 0)]) /\
  convert_decimals (VSet [VDecimal (decimal.Finite false 10 0)]) =
    Ok (VList [VInt 10]).
Proof. split; reflexivity. Qed.

(** C6: the decimal [1E+28], also written with 29 digits and exponent 0,
    has zero fractional part and [int] of it is [10^28], yet both
    normalisers raise on it: its quotient by one needs 29 digits and the
    remainder operation signals [DivisionImpossible] under the 28-digit
    default context. *)
Theorem convert_decimals_raises_on_large_integral :
  let d := decimal.Finite false 1 28 in
  let d' := decimal.Finite false 10000000000000000000000000000 0 in
  decimal.is_integral d /\ decimal.is_integral d' /\
  decimal.to_int d = Ok (10 ^ 28) /\ decimal.to_int d' = Ok (10 ^ 28) /\
  _convert_decimals (VDecimal d) =
    Raise (decimal.InvalidOperation "DivisionImpossible") /\
  convert_decimals (VDecimal d) =
    Raise (decimal.InvalidOperation "DivisionImpossible") /\
  _convert_decimals (VDecimal d') =
    Raise (decimal.InvalidOperation "DivisionImpossible") /\
  convert_decimals (VDecimal d') =
    Raise (decimal.InvalidOperation "DivisionImpossible").
Proof.
  cbv zeta.
  split; [|split; [|split; [|split; [|split; [|split; [|split]]]]]];
    vm_compute; reflexivity.
Qed.

(** One digit less and the same value class converts. *)
Example convert_decimals_largest_integral :
  _convert_decimals (VDecimal (decimal.Finite false 9999999999999999999999999999 0))
  = Ok (VInt 9999999999999999999999999999).
Proof. vm_compute. reflexivity. Qed.

(** ** Safe nested lookup *)

Lemma walk_Resolves v ks r : walk v ks = Some r <-> Resolves v ks r.
Proof.
  revert v. induction ks as [|k ks IH]; intros v; simpl.
  - split; [intros [= ->]; constructor | by inversion 1].
  - destruct v; try (split; [done | by inversion 1]).
    destruct (dict_get k items) as [v'|] eqn:E.
    + rewrite IH. split; [by econstructor|].
      inversion 1; subst. congruence.
    + split; [done|]. inversion 1; subst. congruence.
Qed.

Lemma split_nonempty sep s : split sep s <> [].
Proof.
  destruct s as [|c s]; simpl; [done|].
  destruct (Ascii.eqb c sep); [done|]. by destruct (split sep s).
Qed.

Lemma Resolves_is_dict v ks r :
  ks <> [] -> Resolves v ks r -> is_dict v = true.
Proof. intros Hks. by destruct 1. Qed.

(** C3, amended: [safe_get] returns the default when the path does not
    resolve (a segment is absent or a value passed through is not a
    [dict]) and also when it resolves to [None]; otherwise it returns
    the normalised resolved value, and raises only if that normalisation
    does. On [{}] with path ["a.b.c"] and default ["X"] it returns ["X"],
    on [{a:{b:{c:5}}}] it returns [5]. *)
Theorem safe_get_resolves (data : pyval) (key : string) (default : pyval) :
  let path := split "." key in
  ((forall v, ~ Resolves data path v) ->
     safe_get data key default = Ok default) /\
  (Resolves data path VNone -> safe_get data key default = Ok default) /\
  (forall v, Resolves data path v -> v <> VNone ->
     safe_get data key default = convert_decimals v) /\
  safe_get (VDict []) "a.b.c" (VStr "X") = Ok (VStr "X") /\
  safe_get (VDict [("a", VDict [("b", VDict [("c", VInt 5)])])])
    "a.b.c" (VStr "X") = Ok (VInt 5).
Proof.
  cbv zeta. unfold safe_get.
  split; [|split; [|split; [|split; reflexivity]]].
  - intros Hno. destruct (is_dict data); [|done]. simpl.
    destruct (walk data (split "." key)) as [r|] eqn:E; [|done].
    apply walk_Resolves in E. by destruct (Hno r).
  - intros Hres. destruct (is_dict data); [|done]. simpl.
    apply walk_Resolves in Hres. by rewrite Hres.
  - intros v Hres Hv.
    rewrite (Resolves_is_dict _ _ _ (split_nonempty _ _) Hres). simpl.
    apply walk_Resolves in Hres. rewrite Hres. by destruct v.
Qed.

Lemma safe_get_resolves_witness :
  Resolves (VDict [("n", VDecimal (decimal.Finite false 105 (-1)))])
    (split "." "n") (VDecimal (decimal.Finite false 105 (-1))) /\
  safe_get (VDict [("n", VDecimal (decimal.Finite false 105 (-1)))])
    "n" VNone =
  convert_decimals (VDecimal (decimal.Finite false 105 (-1))).
Proof.
  assert (Hres : Resolves (VDict [("n", VDecimal (decimal.Finite false 105 (-1)))])
            (split "." "n") (VDecimal (decimal.Finite false 105 (-1)))).
  { apply walk_Resolves. reflexivity. }
  split; [exact Hres|].
  apply (safe_get_resolves
           (VDict [("n", VDecimal (decimal.Finite false 105 (-1)))]) "n" VNone);
    [exact Hres | discriminate].
Defined.

(** C3 as stated fails where the path resolves to [None]: every segment
    is present and every value passed through is a [dict], the resolved
    value is [None] (which normalisation leaves alone), and the default
    comes back instead. *)
Lemma safe_get_none_gives_default :
  Resolves (VDict [("a", VNone)]) (split "." "a") VNone /\
  convert_decimals VNone = Ok VNone /\
  safe_get (VDict [("a", VNone)]) "a" (VStr "X") = Ok (VStr "X") /\
  safe_get (VDict [("a", VNone)]) "a" (VStr "X") <> convert_decimals VNone.
Proof.
  split; [apply walk_Resolves; reflexivity|].
  split; [reflexivity|]. split; [reflexivity|]. discriminate.
Qed.

(** The normalisation inside [safe_get] can raise. *)
Example safe_get_raises :
  safe_get (VDict [("n", VDecimal (decimal.Finite false 1 28))]) "n" VNone =
  Raise (decimal.InvalidOperation "DivisionImpossible").
Proof. vm_compute. reflexivity. Qed.

(** ** The timestamp formatter *)

Lemma format_timestamp_str_ok `{Runtime} (s : string) :
  exists out, format_timestamp (VStr s) = Ok out.
Proof.
  unfold format_timestamp.
  destruct (datetime.fromisoformat _); eauto.
Qed.

Lemma hms_sum (secs : Z) :
  secs / 3600 * 3600 + secs mod 3600 / 60 * 60 + secs mod 60 = secs.
Proof. Z.div_mod_to_equations. lia. Qed.

Ltac eval_closed t := let v := eval vm_compute in t in change t with v.

Lemma utc_to_seconds_near_epoch (k y m d hh mm ss : Z) :
  In (k, (y, m, d))
     [(-2, (1969, 12, 30)); (-1, (1969, 12, 31)); (0, (1970, 1, 1));
      (1, (1970, 1, 2))] ->
  datetime.civil_from_days k = (y, m, d) /\
  datetime.tm_year_fits y = true /\
  datetime.utc_to_seconds (datetime.wrap_int y, m, d, hh, mm, ss) =
    Ok (k * 86400 + hh * 3600 + mm * 60 + ss).
Proof.
  intros Hin. cbn [In] in Hin.
  destruct Hin as [E | [E | [E | [E | []]]]]; injection E as <- <- <- <-;
    (split; [reflexivity|]; split; [reflexivity|]);
    unfold datetime.utc_to_seconds;
    match goal with
    | |- context [datetime.wrap_int ?y] => eval_closed (datetime.wrap_int y)
    end;
    match goal with
    | |- context [datetime.days_before_year ?y + datetime.days_before_month ?y ?m + ?d - 1] =>
        eval_closed (datetime.days_before_year y + datetime.days_before_month y m + d - 1)
    end;
    match goal with
    | |- context [(1 <=? ?y) && (?y <=? 9999)] =>
        eval_closed ((1 <=? y) && (y <=? 9999))
    end; cbv iota; f_equal; lia.
Qed.

(** Around the epoch, [local] is the instant shifted by the offset. *)
Lemma local_near_epoch `{Runtime} (u : Z) :
  - 172800 <= u < 172800 ->
  - 172800 <= u + utcoffset u < 172800 ->
  datetime.local u = Ok (u + utcoffset u).
Proof.
  intros Hu Hl.
  unfold datetime.local, datetime.localtime.
  set (l := u + utcoffset u) in *.
  pose proof (Z.div_mod u 86400 ltac:(lia)) as Eu.
  pose proof (Z.mod_pos_bound u 86400 ltac:(lia)) as Bu.
  pose proof (Z.div_mod l 86400 ltac:(lia)) as El.
  pose proof (Z.mod_pos_bound l 86400 ltac:(lia)) as Bl.
  pose proof (hms_sum (l mod 86400)) as Hs.
  set (secs := l mod 86400) in *.
  assert (Hdu : exists yu mu du,
             In (u / 86400, (yu, mu, du))
               [(-2, (1969, 12, 30)); (-1, (1969, 12, 31)); (0, (1970, 1, 1));
                (1, (1970, 1, 2))]).
  { assert (Hc : u / 86400 = -2 \/ u / 86400 = -1 \/ u / 86400 = 0 \/
                 u / 86400 = 1) by lia.
    destruct Hc as [E | [E | [E | E]]]; rewrite E; cbn [In]; eauto 8. }
  assert (Hdl : exists y m d,
             In (l / 86400, (y, m, d))
               [(-2, (1969, 12, 30)); (-1, (1969, 12, 31)); (0, (1970, 1, 1));
                (1, (1970, 1, 2))]).
  { assert (Hc : l / 86400 = -2 \/ l / 86400 = -1 \/ l / 86400 = 0 \/
                 l / 86400 = 1) by lia.
    destruct Hc as [E | [E | [E | E]]]; rewrite E; cbn [In]; eauto 8. }
  destruct Hdu as (yu & mu & du & Hin_u).
  destruct Hdl as (y & m & d & Hin_l).
  destruct (utc_to_seconds_near_epoch _ _ _ _ 0 0 0 Hin_u) as (-> & -> & _).
  destruct (utc_to_seconds_near_epoch _ _ _ _ (secs / 3600)
              (secs mod 3600 / 60) (secs mod 60) Hin_l) as (-> & -> & Hsec).
  cbn [andb mbind result_bind]. rewrite Hsec. f_equal. lia.
Qed.

(** C4, amended: on a host whose local time is never more than a day
    off UTC and is at UTC offset zero at epoch 0, [format_timestamp] maps
    epoch [0] to ["1970-01-01 00:00:00"]; on every host it maps
    ["2024-01-15T10:30:00Z"] to ["2024-01-15 10:30:00"], returns
    ["not-a-date"] and every other string that [datetime.fromisoformat]
    rejects unchanged, and never raises on a string. *)
Theorem format_timestamp_examples `{Runtime} :
  (utcoffset 0 = 0 -> (forall t, - 86400 <= utcoffset t <= 86400) ->
   format_timestamp (VInt 0) = Ok "1970-01-01 00:00:00") /\
  format_timestamp (VStr "2024-01-15T10:30:00Z") = Ok "2024-01-15 10:30:00" /\
  format_timestamp (VStr "not-a-date") = Ok "not-a-date" /\
  (forall s,
     datetime.fromisoformat (replace "Z" "+00:00" s) = None ->
     format_timestamp (VStr s) = Ok s) /\
  (forall s, exists out, format_timestamp (VStr s) = Ok out).
Proof.
  split; [|split; [|split; [|split]]].
  - intros Hutc Hday.
    unfold format_timestamp, datetime.fromtimestamp.
    change ((- 2 ^ 63 <=? 0) && (0 <? 2 ^ 63)) with true. cbv iota.
    assert (Hl : datetime.localtime 0 = Ok (1970, 1, 1, 0, 0, 0)).
    { unfold datetime.localtime. rewrite Hutc. reflexivity. }
    rewrite Hl. cbn [mbind result_bind].
    change (datetime.utc_to_seconds (1970, 1, 1, 0, 0, 0)) with (Ok 0).
    cbn [mbind result_bind].
    pose proof (Hday (0 - datetime.max_fold_seconds)) as Ho.
    rewrite local_near_epoch;
      [| unfold datetime.max_fold_seconds; lia
       | unfold datetime.max_fold_seconds in *; lia].
    cbn [mbind result_bind].
    set (transition := 0 - _ - _).
    destruct (Z.ltb_spec transition 0) as [Hlt|Hge]; [|reflexivity].
    pose proof (Hday (0 + transition)) as Ht.
    rewrite local_near_epoch;
      [reflexivity
      | subst transition; unfold datetime.max_fold_seconds in *; lia
      | subst transition; unfold datetime.max_fold_seconds in *; lia].
  - reflexivity.
  - reflexivity.
  - intros s He. unfold format_timestamp. by rewrite He.
  - apply format_timestamp_str_ok.
Qed.

Lemma format_timestamp_examples_witness :
  @utcoffset (host 0) 0 = 0 /\
  (forall t, - 86400 <= @utcoffset (host 0) t <= 86400) /\
  @format_timestamp (host 0) (VInt 0) = Ok "1970-01-01 00:00:00".
Proof.
  split; [reflexivity|]. split; [intros t; cbn; lia|].
  destruct (@format_timestamp_examples (host 0)) as [Hepoch _].
  apply Hepoch; [reflexivity | intros t; cbn; lia].
Defined.

(** C4 as stated fails on a host five hours west of UTC: epoch [0] is
    printed as the local time of that instant. *)
Lemma format_timestamp_epoch_local :
  @format_timestamp (host (-18000)) (VInt 0) = Ok "1969-12-31 19:00:00" /\
  @format_timestamp (host (-18000)) (VInt 0) <> Ok "1970-01-01 00:00:00".
Proof. split; [reflexivity | discriminate]. Qed.

(** ** The store gateway *)

(** C8: [get_all_cases] always returns; when [get_table] or [scan]
    raises, it returns the empty list and appends the cause to the log
    as an error record. *)
Theorem get_all_cases_never_raises {S} (client : AWSClient S) (w : world S) :
  (exists cases w', get_all_cases client w = (Ok cases, w')) /\
  (forall e w',
     get_table client table_name w = (Raise e, w') ->
     get_all_cases client w =
       (Ok [], {| store := store w';
                  logs := logs w' ++
                    [(ERROR, "Error fetching cases: " +:+ exn_str e)] |})) /\
  (forall table w1 e w',
     get_table client table_name w = (Ok table, w1) ->
     scan table w1 = (Raise e, w') ->
     get_all_cases client w =
       (Ok [], {| store := store w';
                  logs := logs w' ++
                    [(ERROR, "Error fetching cases: " +:+ exn_str e)] |})).
Proof.
  unfold get_all_cases, try_except, get_all_cases_body, seq, lift.
  split; [|split].
  - destruct (get_table client table_name w) as [[table|e] w1]; [|by eauto].
    destruct (scan table w1) as [[response|e] w2]; [|by eauto].
    destruct (_ ≫= _); by eauto.
  - intros e w' ->. reflexivity.
  - intros table w1 e w' -> ->. reflexivity.
Qed.

Lemma get_all_cases_never_raises_witness :
  get_table (@missing_table_client unit) table_name (w0 tt) =
    (Raise (Exn "ClientError" "ResourceNotFoundException"),
     {| store := tt;
        logs := [(ERROR, "Error accessing table HealthCareCases: ResourceNotFoundException")] |}) /\
  get_all_cases (@missing_table_client unit) (w0 tt) =
    (Ok [],
     {| store := tt;
        logs := [(ERROR, "Error accessing table HealthCareCases: ResourceNotFoundException");
                 (ERROR, "Error fetching cases: ResourceNotFoundException")] |}).
Proof.
  split; [reflexivity|].
  destruct (get_all_cases_never_raises (@missing_table_client unit) (w0 tt))
    as (_ & Hget & _).
  exact (Hget _ _ eq_refl).
Defined.

(** A case the normaliser raises on empties the whole answer. *)
Example get_all_cases_large_number :
  fst (get_all_cases keyed_client
         (w0 (<["c1" := [("caseID", VStr "c1");
                         ("amount", VDecimal (decimal.Finite false 1 28))]]> ∅)))
  = Ok [].
Proof. vm_compute. reflexivity. Qed.

(** C1, amended: [update_case_status] checks nothing about the case
    itself. It returns [True], after an info record, exactly when
    [get_table] and the store's [update_item] both return, and the store
    is then as [update_item] left it; it returns [False], after an error
    record, exactly when one of the two raises, and the store is then as
    the raising call left it. *)
Theorem update_case_status_outcome {S} (client : AWSClient S)
    (case_id new_status : string) (w : world S) :
  (forall table w1 r w2,
     get_table client table_name w = (Ok table, w1) ->
     update_item table (status_update case_id new_status) w1 = (Ok r, w2) ->
     update_case_status client case_id new_status w =
       (Ok true,
        {| store := store w2;
           logs := logs w2 ++
             [(INFO, "Case " +:+ case_id +:+ " updated to " +:+ new_status)] |})) /\
  (forall e w',
     get_table client table_name w = (Raise e, w') ->
     update_case_status client case_id new_status w =
       (Ok false,
        {| store := store w';
           logs := logs w' ++
             [(ERROR, "Error updating case " +:+ case_id +:+ ": " +:+ exn_str e)] |})) /\
  (forall table w1 e w2,
     get_table client table_name w = (Ok table, w1) ->
     update_item table (status_update case_id new_status) w1 = (Raise e, w2) ->
     update_case_status client case_id new_status w =
       (Ok false,
        {| store := store w2;
           logs := logs w2 ++
             [(ERROR, "Error updating case " +:+ case_id +:+ ": " +:+ exn_str e)] |})).
Proof.
  unfold update_case_status, try_except, update_case_status_body, seq.
  split; [|split].
  - intros table w1 r w2 -> ->. reflexivity.
  - intros e w' ->. reflexivity.
  - intros table w1 e w2 -> ->. reflexivity.
Qed.

Lemma update_case_status_outcome_witness :
  get_table (@missing_table_client unit) table_name (w0 tt) =
    (Raise (Exn "ClientError" "ResourceNotFoundException"),
     {| store := tt;
        logs := [(ERROR, "Error accessing table HealthCareCases: ResourceNotFoundException")] |}) /\
  update_case_status (@missing_table_client unit) "CASE-1" "APPROVED" (w0 tt) =
    (Ok false,
     {| store := tt;
        logs := [(ERROR, "Error accessing table HealthCareCases: ResourceNotFoundException");
                 (ERROR, "Error updating case CASE-1: ResourceNotFoundException")] |}).
Proof.
  split; [reflexivity|].
  destruct (update_case_status_outcome (@missing_table_client unit)
              "CASE-1" "APPROVED" (w0 tt)) as (_ & Hget & _).
  exact (Hget _ _ eq_refl).
Defined.

(** C1 as stated fails on the test double of the repository: its table
    holds no case at all, and updating the status of any case ID answers
    [True]. *)
Lemma update_case_status_mock_unknown_id :
  fst (get_all_cases (@MockAWSClient unit) (w0 tt)) = Ok [] /\
  fst (update_case_status (@MockAWSClient unit) "CASE-404" "APPROVED" (w0 tt))
    = Ok true /\
  fst (update_case_status (@MockAWSClient unit) "CASE-404" "APPROVED" (w0 tt))
    <> Ok false.
Proof. split; [reflexivity|]. split; [reflexivity | discriminate]. Qed.

(** On a table that holds records, the update of an unknown case ID
    stores a new record made of the key and the status. *)
Lemma update_case_status_keyed_unknown_id
    (m : gmap string dict) (case_id new_status : string) :
  m !! case_id = None ->
  update_case_status keyed_client case_id new_status (w0 m) =
    (Ok true,
     {| store := <[case_id := [("caseID", VStr case_id);
                               ("status", VStr new_status)]]> m;
        logs := [(INFO, "Case " +:+ case_id +:+ " updated to " +:+ new_status)] |}).
Proof.
  intros Hm.
  unfold update_case_status, try_except, update_case_status_body, seq.
  cbn. rewrite Hm. reflexivity.
Qed.

(** On the same table a known case gets its status replaced and nothing
    else changes. *)
Lemma update_case_status_keyed_known_id
    (m : gmap string dict) (case_id new_status : string) (item : dict) :
  m !! case_id = Some item ->
  update_case_status keyed_client case_id new_status (w0 m) =
    (Ok true,
     {| store := <[case_id := set_attr "status" (VStr new_status) item]> m;
        logs := [(INFO, "Case " +:+ case_id +:+ " updated to " +:+ new_status)] |}).
Proof.
  intros Hm.
  unfold update_case_status, try_except, update_case_status_body, seq.
  cbn. rewrite Hm. reflexivity.
Qed.

(** * Further properties *)

(** ** More on the case filter *)

Lemma filter_filter {A} (f g : A -> bool) l :
  List.filter g (List.filter f l) = List.filter (fun x => f x && g x) l.
Proof.
  induction l as [|x l IH]; simpl; [done|].
  destruct (f x); simpl; [|done]. destruct (g x); by rewrite IH.
Qed.

Lemma filter_true {A} (l : list A) : List.filter (fun _ => true) l = l.
Proof. induction l as [|x l IH]; simpl; by rewrite ?IH. Qed.

Lemma filter_cases_keeps `{Runtime} (C : list dict) (f : Filters) :
  filter_cases C f = List.filter (keeps f) C.
Proof.
  unfold filter_cases, keeps.
  rewrite <- !filter_filter.
  set (C1 := List.filter (fun c => keeps_in (status f) "status" c) C).
  assert (H1 : match status f with
               | Some ((_ :: _) as allowed) =>
                   List.filter (fun c => in_strs (get c "status") allowed) C
               | _ => C end = C1).
  { unfold C1, keeps_in. destruct (status f) as [[|a l]|];
      by rewrite ?filter_true. }
  rewrite H1. clearbody C1.
  set (C2 := List.filter (fun c => keeps_in (document_type f) "documentType" c) C1).
  assert (H2 : match document_type f with
               | Some ((_ :: _) as allowed) =>
                   List.filter (fun c => in_strs (get c "documentType") allowed) C1
               | _ => C1 end = C2).
  { unfold C2, keeps_in. destruct (document_type f) as [[|a l]|];
      by rewrite ?filter_true. }
  rewrite H2. clearbody C2.
  set (C3 := List.filter (fun c => keeps_in (priority f) "priority" c) C2).
  assert (H3 : match priority f with
               | Some ((_ :: _) as allowed) =>
                   List.filter (fun c => in_strs (get c "priority") allowed) C2
               | _ => C2 end = C3).
  { unfold C3, keeps_in. destruct (priority f) as [[|a l]|];
      by rewrite ?filter_true. }
  rewrite H3. clearbody C3.
  unfold keeps_search. destruct (search_term f) as [[|a t]|];
    by rewrite ?filter_true.
Qed.

Lemma keeps_in_admits allowed field c :
  keeps_in allowed field c = true <-> admits allowed field c.
Proof.
  unfold keeps_in, admits. destruct allowed as [[|a l]|]; try done.
  unfold in_strs. rewrite existsb_exists.
  split; intros [v [Hin Hv]]; exists v; (split; [done|]);
    by apply eq_str_field_is.
Qed.

Lemma keeps_search_admits `{Runtime} term c :
  keeps_search term c = true <-> admits_search term c.
Proof.
  unfold keeps_search, admits_search. destruct term as [[|a t]|]; try done.
  by apply _case_matches_search_spec.
Qed.

Lemma keeps_passes `{Runtime} f c : keeps f c = true <-> passes f c.
Proof.
  unfold keeps, passes.
  rewrite !andb_true_iff, !keeps_in_admits, keeps_search_admits. tauto.
Qed.

Lemma filter_cases_Selects `{Runtime} (C : list dict) (f : Filters) :
  Selects (passes f) C (filter_cases C f).
Proof.
  rewrite filter_cases_keeps. apply Selects_filter.
  intros c. apply keeps_passes.
Qed.

Lemma filter_cases_In `{Runtime} (C : list dict) (f : Filters) (c : dict) :
  In c (filter_cases C f) <-> In c C /\ passes f c.
Proof. eapply Selects_In. apply filter_cases_Selects. Qed.

(** The criteria that are set are combined with "and": the result is the
    input with exactly the cases kept that satisfy every one of them, in
    the input's order. *)
Theorem filter_cases_passes `{Runtime} (C : list dict) (f : Filters) :
  Selects (passes f) C (filter_cases C f) /\
  (forall c, In c (filter_cases C f) <-> In c C /\ passes f c).
Proof.
  split; [apply filter_cases_Selects | intros c; apply filter_cases_In].
Qed.

(** Whatever the criteria, the result is a sublist of the input: nothing
    is added, duplicated or reordered, and it is no longer than the
    input. *)
Theorem filter_cases_sublist `{Runtime} (C : list dict) (f : Filters) :
  sublist (filter_cases C f) C /\
  (length (filter_cases C f) <= length C)%nat.
Proof.
  assert (Hsub : sublist (filter_cases C f) C).
  { eapply Selects_sublist. apply filter_cases_Selects. }
  split; [done | by apply sublist_length].
Qed.

(** Filtering a second time with the same criteria changes nothing. *)
Theorem filter_cases_idempotent `{Runtime} (C : list dict) (f : Filters) :
  filter_cases (filter_cases C f) f = filter_cases C f.
Proof.
  rewrite !filter_cases_keeps, filter_filter.
  apply filter_ext. intros c. by destruct (keeps f c).
Qed.

(** Filtering with one set of criteria and then with another gives the
    same list as doing it in the other order; both are the cases of the
    input that satisfy the two sets at once. *)
Theorem filter_cases_commute `{Runtime} (C : list dict) (f g : Filters) :
  filter_cases (filter_cases C f) g = filter_cases (filter_cases C g) f /\
  Selects (fun c => passes f c /\ passes g c) C
    (filter_cases (filter_cases C f) g).
Proof.
  rewrite !filter_cases_keeps, !filter_filter. split.
  - apply filter_ext. intros c. apply andb_comm.
  - apply Selects_filter. intros c.
    by rewrite andb_true_iff, !keeps_passes.
Qed.

(** Every case is judged on its own: filtering a concatenation is
    concatenating the filtered parts. *)
Theorem filter_cases_app `{Runtime} (C1 C2 : list dict) (f : Filters) :
  filter_cases (C1 ++ C2)%list f
  = (filter_cases C1 f ++ filter_cases C2 f)%list.
Proof. rewrite !filter_cases_keeps. apply List.filter_app. Qed.

(** A case whose status is missing, or is not a string, is dropped as
    soon as a non-empty status criterion is set. *)
Theorem filter_cases_drops_missing_status `{Runtime}
    (C : list dict) (f : Filters) (c : dict) (a : string) (l : list string) :
  status f = Some (a :: l) ->
  (forall v, dict_get "status" c <> Some (VStr v)) ->
  ~ In c (filter_cases C f).
Proof.
  intros Hst Hno Hin.
  apply filter_cases_In in Hin as [_ [Hadm _]].
  rewrite Hst in Hadm. destruct Hadm as [v [_ Hv]]. by apply (Hno v).
Qed.

Lemma filter_cases_drops_missing_status_witness :
  ~ In [("priority", VStr "HIGH")]
      (@filter_cases (host 0)
         [[("priority", VStr "HIGH")]; [("status", VStr "APPROVED")]]
         {| status := Some ["APPROVED"]; document_type := None;
            priority := None; search_term := None |}).
Proof.
  apply (@filter_cases_drops_missing_status (host 0) _ _ _ "APPROVED" []);
    [reflexivity | intros v; discriminate].
Defined.

(** The search does not depend on the case of the term: two non-empty
    terms with the same lower-case form select the same cases. *)
Theorem filter_cases_term_case_insensitive `{Runtime}
    (C : list dict) (st dt pr : option (list string)) (t1 t2 : string) :
  t1 <> "" -> t2 <> "" -> str_lower t1 = str_lower t2 ->
  filter_cases C {| status := st; document_type := dt; priority := pr;
                    search_term := Some t1 |} =
  filter_cases C {| status := st; document_type := dt; priority := pr;
                    search_term := Some t2 |}.
Proof.
  intros H1 H2 Hl. rewrite !filter_cases_keeps. apply filter_ext.
  intros c. unfold keeps. cbn [status document_type priority search_term].
  f_equal. unfold keeps_search.
  destruct t1 as [|a1 t1]; [done|]. destruct t2 as [|a2 t2]; [done|].
  by rewrite Hl.
Qed.

Lemma filter_cases_term_case_insensitive_witness :
  "LEE" <> "" /\ "Lee" <> "" /\
  @filter_cases (host 0) [[("patientName", VStr "Ann Lee")]]
    {| status := None; document_type := None; priority := None;
       search_term := Some "LEE" |} =
  @filter_cases (host 0) [[("patientName", VStr "Ann Lee")]]
    {| status := None; document_type := None; priority := None;
       search_term := Some "Lee" |}.
Proof.
  split; [done|]. split; [done|].
  apply (@filter_cases_term_case_insensitive (host 0)); done.
Defined.
(** ** More on the metrics *)

Lemma status_not_both v :
  eq_str v "PENDING_REVIEW" && eq_str v "APPROVED" = false.
Proof.
  destruct v; try reflexivity. simpl.
  destruct (String.eqb_spec s "PENDING_REVIEW") as [->|]; reflexivity.
Qed.

(** The pending and the approved cases are disjoint parts of the list,
    and the high-priority ones are a part of it. *)
Theorem get_case_metrics_bounds (cases : list dict) :
  let m := get_case_metrics cases in
  (pending_cases m + approved_cases m <= total_cases m)%nat /\
  (high_priority m <= total_cases m)%nat.
Proof.
  cbv zeta. unfold get_case_metrics.
  cbn [total_cases pending_cases high_priority approved_cases]. split.
  - induction cases as [|c cases IH]; [done|].
    cbn [List.filter length].
    pose proof (status_not_both (get c "status")) as Hnb.
    destruct (eq_str (get c "status") "PENDING_REVIEW");
      destruct (eq_str (get c "status") "APPROVED");
      try discriminate; cbn [length]; lia.
  - apply List.filter_length_le.
Qed.

(** The metrics of a concatenation are the sums of the metrics of its
    parts. *)
Theorem get_case_metrics_app (C1 C2 : list dict) :
  get_case_metrics (C1 ++ C2)%list =
  {| total_cases :=
       total_cases (get_case_metrics C1) + total_cases (get_case_metrics C2);
     pending_cases :=
       pending_cases (get_case_metrics C1) + pending_cases (get_case_metrics C2);
     high_priority :=
       high_priority (get_case_metrics C1) + high_priority (get_case_metrics C2);
     approved_cases :=
       approved_cases (get_case_metrics C1) + approved_cases (get_case_metrics C2)
  |}.
Proof.
  unfold get_case_metrics.
  cbn [total_cases pending_cases high_priority approved_cases].
  by rewrite !List.filter_app, !length_app.
Qed.

(** The three counts are the lengths of what [filter_cases] returns for
    the corresponding single criterion. *)
Theorem get_case_metrics_filter_cases `{Runtime} (cases : list dict) :
  let m := get_case_metrics cases in
  let only_status s :=
    {| status := Some [s]; document_type := None; priority := None;
       search_term := None |} in
  pending_cases m = length (filter_cases cases (only_status "PENDING_REVIEW")) /\
  approved_cases m = length (filter_cases cases (only_status "APPROVED")) /\
  high_priority m =
    length (filter_cases cases
              {| status := None; document_type := None;
                 priority := Some ["HIGH"]; search_term := None |}).
Proof.
  cbv zeta. unfold get_case_metrics, filter_cases.
  cbn [total_cases pending_cases high_priority approved_cases
       status document_type priority search_term].
  repeat split; f_equal; apply filter_ext; intros c;
    by rewrite in_strs_singleton.
Qed.

Lemma filter_length_mono {A} (f g : A -> bool) l :
  (forall x, f x = true -> g x = true) ->
  (length (List.filter f l) <= length (List.filter g l))%nat.
Proof.
  intros Hfg. induction l as [|x l IH]; simpl; [done|].
  destruct (f x) eqn:E.
  - rewrite (Hfg x E). simpl. lia.
  - destruct (g x); simpl; lia.
Qed.

(** The dashboard table: whatever the sidebar selects, its rows are
    pending cases, and there are at most as many of them as the pending
    tile counts for the same list of cases. *)
Theorem dashboard_rows_are_pending `{Runtime}
    (cases : list dict) (doc_type_filter priority_filter : list string) :
  let rows :=
    filter_cases cases (dashboard_filters doc_type_filter priority_filter) in
  (forall c, In c rows -> field_is "status" "PENDING_REVIEW" c) /\
  (length rows <= pending_cases (get_case_metrics cases))%nat.
Proof.
  cbv zeta. split.
  - intros c Hin. apply filter_cases_In in Hin as [_ [Hadm _]].
    cbn in Hadm. destruct Hadm as [v [[<-|[]] Hv]]. exact Hv.
  - rewrite filter_cases_keeps.
    unfold get_case_metrics. cbn [pending_cases].
    apply filter_length_mono. intros c. unfold keeps, dashboard_filters.
    cbn [status document_type priority search_term keeps_in].
    rewrite in_strs_singleton, !andb_true_iff. tauto.
Qed.
(** ** More on decimal normalisation *)

Lemma for_append_Forall2 f items out :
  for_append f items = Ok out <-> Forall2 (fun v w => f v = Ok w) items out.
Proof.
  revert out. induction items as [|v items IH]; intros out; simpl.
  - split; [intros [= <-]; constructor | by inversion 1].
  - destruct (f v) as [w|e] eqn:Ev; cbn [mbind result_bind].
    + destruct (for_append f items) as [ws|e] eqn:Eg; cbn [mbind result_bind].
      * split.
        -- intros [= <-]. constructor; [done | by apply IH].
        -- inversion 1 as [|? w' ? ws' Hw Hws]; subst.
           apply IH in Hws. congruence.
      * split; [done|]. inversion 1 as [|? w' ? ws' Hw Hws]; subst.
        apply IH in Hws. congruence.
    + split; [done|]. inversion 1; subst. congruence.
Qed.

Lemma for_items_Forall2 f items out :
  for_items f items = Ok out <->
  Forall2 (fun kv kw => fst kv = fst kw /\ f (snd kv) = Ok (snd kw)) items out.
Proof.
  revert out. induction items as [|[k v] items IH]; intros out; simpl.
  - split; [intros [= <-]; constructor | by inversion 1].
  - destruct (f v) as [w|e] eqn:Ev; cbn [mbind result_bind].
    + destruct (for_items f items) as [ws|e] eqn:Eg; cbn [mbind result_bind].
      * split.
        -- intros [= <-]. constructor; [done | by apply IH].
        -- inversion 1 as [|? [k' w'] ? ws' [Hk Hw] Hws]; subst.
           apply IH in Hws. simpl in *. congruence.
      * split; [done|]. inversion 1 as [|? [k' w'] ? ws' [Hk Hw] Hws]; subst.
        apply IH in Hws. congruence.
    + split; [done|]. inversion 1 as [|? [k' w'] ? ws' [Hk Hw] Hws]; subst.
      simpl in *. congruence.
Qed.

Lemma _convert_decimals_list_eq items :
  _convert_decimals (VList items) = VList <$> for_append _convert_decimals items.
Proof.
  simpl. f_equal. induction items as [|v items IH]; simpl; [done|].
  by rewrite IH.
Qed.

Lemma _convert_decimals_dict_eq items :
  _convert_decimals (VDict items) = VDict <$> for_items _convert_decimals items.
Proof.
  simpl. f_equal. induction items as [|[k v] items IH]; simpl; [done|].
  by rewrite IH.
Qed.

Lemma convert_decimals_list_eq items :
  convert_decimals (VList items) = VList <$> for_append convert_decimals items.
Proof.
  simpl. f_equal. induction items as [|v items IH]; simpl; [done|].
  by rewrite IH.
Qed.

Lemma convert_decimals_set_eq items :
  convert_decimals (VSet items) = VList <$> for_append convert_decimals items.
Proof.
  simpl. f_equal. induction items as [|v items IH]; simpl; [done|].
  by rewrite IH.
Qed.

Lemma convert_decimals_dict_eq items :
  convert_decimals (VDict items) = VDict <$> for_items convert_decimals items.
Proof.
  simpl. f_equal. induction items as [|[k v] items IH]; simpl; [done|].
  by rewrite IH.
Qed.

Lemma fmap_Ok_inv {A B} (f : A -> B) (r : result A) (b : B) :
  f <$> r = Ok b -> exists a, r = Ok a /\ b = f a.
Proof. destruct r; [intros [= <-]; eauto | done]. Qed.

Lemma fix_is_finite s c e :
  exists s' c' e', decimal.fix_ (decimal.Finite s c e) = decimal.Finite s' c' e'.
Proof.
  unfold decimal.fix_. cbv zeta.
  destruct (Z.of_N c =? 0); [eauto|].
  destruct (_ <? _); [|eauto].
  destruct (decimal.prec <? _); eauto.
Qed.

(** A decimal that normalises becomes an [int] or a [float]. *)
Lemma convert_decimal_Ok d v :
  convert_decimal d = Ok v -> (exists n, v = VInt n) \/ (exists f, v = VFloat f).
Proof.
  unfold convert_decimal.
  destruct (decimal.mod_1 d) as [r|]; [|done]. cbn [mbind result_bind].
  destruct (decimal.ne_0 r) as [[|]|]; [| |done]; cbn [mbind result_bind];
    intros Hv; apply fmap_Ok_inv in Hv as [x [_ ->]]; eauto.
Qed.

(** Normalisation raises on a decimal exactly when the decimal is an
    infinity, a signaling NaN, or a finite number whose integer part has
    more than 28 digits. *)
Theorem convert_decimal_raises_iff (d : Decimal) :
  (exists e, convert_decimal d = Raise e) <-> out_of_reach d.
Proof.
  unfold convert_decimal, out_of_reach. destruct d as [s c e|s|[|]].
  - unfold decimal.mod_1. cbv zeta.
    destruct (Z.ltb_spec ((Z.of_N c * 10 ^ Z.max e 0) / 10 ^ Z.max (- e) 0)
                (10 ^ decimal.prec)) as [Hlt|Hge].
    + split; [|lia]. intros [ex Hex]. exfalso. revert Hex.
      destruct (fix_is_finite s (Z.to_N ((Z.of_N c * 10 ^ Z.max e 0)
                  mod 10 ^ Z.max (- e) 0)) (Z.min e 0)) as (s' & c' & e' & ->).
      cbn [mbind result_bind decimal.ne_0].
      destruct (negb (N.eqb c' 0)).
      * unfold decimal.to_float. destruct (N.eqb c 0); [done|].
        by destruct (SFdiv_core_binary _ _ _ _ _ _) as [[mz ez] lz].
      * done.
    + split; [done|]. intros _. eauto.
  - split; [done|]. intros _. eauto.
  - split; [done|]. intros _. eauto.
  - split; [|done]. by intros [ex Hex].
Qed.

Lemma convert_decimal_integral_witness :
  convert_decimal (decimal.Finite true 1200 (-2)) = Ok (VInt (-12)).
Proof.
  apply (convert_decimal_integral true 1200 (-2)); vm_compute; done.
Defined.

Lemma convert_decimal_fractional_witness :
  exists f, decimal.to_float (decimal.Finite false 125 (-3)) = Ok f /\
            convert_decimal (decimal.Finite false 125 (-3)) = Ok (VFloat f).
Proof.
  apply (convert_decimal_fractional false 125 (-3)); vm_compute; done.
Defined.

Lemma _convert_decimals_decimal_free_witness :
  _convert_decimals (VDict [("patientName", VStr "Ann Lee");
                            ("cptCodes", VList [VStr "99213"])]) =
  Ok (VDict [("patientName", VStr "Ann Lee");
             ("cptCodes", VList [VStr "99213"])]).
Proof. apply _convert_decimals_decimal_free. reflexivity. Defined.

(** [CaseManager._convert_decimals] works element by element: a list
    becomes the list of its normalised elements, a dict keeps its keys
    in order with the values normalised. *)
Theorem _convert_decimals_elementwise (items : list pyval) (entries : dict)
    (v' : pyval) :
  (_convert_decimals (VList items) = Ok v' ->
   exists out, v' = VList out /\
     Forall2 (fun v w => _convert_decimals v = Ok w) items out) /\
  (_convert_decimals (VDict entries) = Ok v' ->
   exists out, v' = VDict out /\
     map fst out = map fst entries /\
     Forall2 (fun v w => _convert_decimals v = Ok w)
       (map snd entries) (map snd out)).
Proof.
  split.
  - rewrite _convert_decimals_list_eq. intros Hv.
    apply fmap_Ok_inv in Hv as [out [Hout ->]]. exists out.
    split; [done | by apply for_append_Forall2].
  - rewrite _convert_decimals_dict_eq. intros Hv.
    apply fmap_Ok_inv in Hv as [out [Hout ->]]. exists out.
    split; [done|]. apply for_items_Forall2 in Hout.
    induction Hout as [|[k v] [k' w] l l' [Hk Hw] _ [IH1 IH2]];
      [by repeat constructor|].
    simpl in *. subst. split; [by rewrite IH1 | by constructor].
Qed.

Lemma _convert_decimals_elementwise_witness :
  exists out,
    VList [VInt 10; VStr "x"] = VList out /\
    Forall2 (fun v w => _convert_decimals v = Ok w)
      [VDecimal (decimal.Finite false 10 0); VStr "x"] out.
Proof.
  apply (_convert_decimals_elementwise
           [VDecimal (decimal.Finite false 10 0); VStr "x"] []
           (VList [VInt 10; VStr "x"])).
  reflexivity.
Defined.

Lemma _convert_decimals_Ok_free (v v' : pyval) :
  _convert_decimals v = Ok v' -> decimal_free v' = true.
Proof.
  intros Hv.
  revert v' Hv.
  induction v as [| | | | |
                  |items IH|items IH|items IH] using pyval_nested_ind;
    intros v' Hv; try (by injection Hv as <-).
  - simpl in Hv. by destruct (convert_decimal_Ok _ _ Hv) as [[n ->]|[f ->]].
  - rewrite _convert_decimals_list_eq in Hv.
    apply fmap_Ok_inv in Hv as [out [Hout ->]].
    apply for_append_Forall2 in Hout. simpl.
    induction Hout as [|x y l l' Hxy _ IHl]; [done|].
    inversion IH as [|? ? Hx Hl]; subst. simpl.
    by rewrite (Hx _ Hxy), (IHl Hl).
  - rewrite _convert_decimals_dict_eq in Hv.
    apply fmap_Ok_inv in Hv as [out [Hout ->]].
    apply for_items_Forall2 in Hout. simpl.
    induction Hout as [|[k x] [k' y] l l' [_ Hxy] _ IHl]; [done|].
    inversion IH as [|? ? Hx Hl]; subst. simpl in *.
    by rewrite (Hx _ Hxy), (IHl Hl).
Qed.

(** What [CaseManager._convert_decimals] returns holds no decimal
    outside sets, so normalising it again returns it unchanged. *)
Theorem _convert_decimals_idempotent (v v' : pyval) :
  _convert_decimals v = Ok v' ->
  decimal_free v' = true /\ _convert_decimals v' = Ok v'.
Proof.
  intros Hv. apply _convert_decimals_Ok_free in Hv.
  split; [done | by apply _convert_decimals_decimal_free].
Qed.

Lemma _convert_decimals_idempotent_witness :
  decimal_free (VList [VInt 10]) = true /\
  _convert_decimals (VList [VInt 10]) = Ok (VList [VInt 10]).
Proof.
  apply (_convert_decimals_idempotent
           (VList [VDecimal (decimal.Finite false 10 0)])).
  reflexivity.
Defined.

Lemma convert_decimals_native v : native v = true -> convert_decimals v = Ok v.
Proof.
  induction v as [| | | | |
                  |items IH|items IH|items IH] using pyval_nested_ind;
    intros Hn; try done.
  - rewrite convert_decimals_list_eq. simpl in Hn.
    enough (Hgo : for_append convert_decimals items = Ok items)
      by (by rewrite Hgo).
    induction IH as [|x r Hx _ IHr]; [done|].
    simpl in Hn. apply andb_true_iff in Hn as [Hx' Hr'].
    simpl. rewrite (Hx Hx'). cbn [mbind result_bind]. by rewrite (IHr Hr').
  - rewrite convert_decimals_dict_eq. simpl in Hn.
    enough (Hgo : for_items convert_decimals items = Ok items)
      by (by rewrite Hgo).
    induction IH as [|[k x] r Hx _ IHr]; [done|].
    simpl in Hn. apply andb_true_iff in Hn as [Hx' Hr'].
    simpl in *. rewrite (Hx Hx'). cbn [mbind result_bind].
    by rewrite (IHr Hr').
Qed.

Lemma convert_decimals_Ok_native (v v' : pyval) :
  convert_decimals v = Ok v' -> native v' = true.
Proof.
  intros Hv.
  revert v' Hv.
  induction v as [| | | | |
                  |items IH|items IH|items IH] using pyval_nested_ind;
    intros v' Hv; try (by injection Hv as <-).
  - simpl in Hv. by destruct (convert_decimal_Ok _ _ Hv) as [[n ->]|[f ->]].
  - rewrite convert_decimals_list_eq in Hv.
    apply fmap_Ok_inv in Hv as [out [Hout ->]].
    apply for_append_Forall2 in Hout. simpl.
    induction Hout as [|x y l l' Hxy _ IHl]; [done|].
    inversion IH as [|? ? Hx Hl]; subst. simpl.
    by rewrite (Hx _ Hxy), (IHl Hl).
  - rewrite convert_decimals_set_eq in Hv.
    apply fmap_Ok_inv in Hv as [out [Hout ->]].
    apply for_append_Forall2 in Hout. simpl.
    induction Hout as [|x y l l' Hxy _ IHl]; [done|].
    inversion IH as [|? ? Hx Hl]; subst. simpl.
    by rewrite (Hx _ Hxy), (IHl Hl).
  - rewrite convert_decimals_dict_eq in Hv.
    apply fmap_Ok_inv in Hv as [out [Hout ->]].
    apply for_items_Forall2 in Hout. simpl.
    induction Hout as [|[k x] [k' y] l l' [_ Hxy] _ IHl]; [done|].
    inversion IH as [|? ? Hx Hl]; subst. simpl in *.
    by rewrite (Hx _ Hxy), (IHl Hl).
Qed.

(** What [convert_decimals] of [app.py] returns holds neither a decimal
    nor a set anywhere, so normalising it again returns it unchanged. *)
Theorem convert_decimals_idempotent (v v' : pyval) :
  convert_decimals v = Ok v' ->
  native v' = true /\ convert_decimals v' = Ok v'.
Proof.
  intros Hv. apply convert_decimals_Ok_native in Hv.
  split; [done | by apply convert_decimals_native].
Qed.

Lemma convert_decimals_idempotent_witness :
  native (VList [VInt 10]) = true /\
  convert_decimals (VList [VInt 10]) = Ok (VList [VInt 10]).
Proof.
  apply (convert_decimals_idempotent
           (VSet [VDecimal (decimal.Finite false 10 0)])).
  reflexivity.
Defined.

(** On values without sets the two normalisers agree. *)
Theorem convert_decimals_agree (v : pyval) :
  set_free v = true -> _convert_decimals v = convert_decimals v.
Proof.
  induction v as [| | | | |
                  |items IH|items IH|items IH] using pyval_nested_ind;
    intros Hs; try done.
  - rewrite _convert_decimals_list_eq, convert_decimals_list_eq. simpl in Hs.
    f_equal. induction IH as [|x r Hx _ IHr]; [done|].
    simpl in Hs. apply andb_true_iff in Hs as [Hx' Hr'].
    simpl. by rewrite (Hx Hx'), (IHr Hr').
  - rewrite _convert_decimals_dict_eq, convert_decimals_dict_eq. simpl in Hs.
    f_equal. induction IH as [|[k x] r Hx _ IHr]; [done|].
    simpl in Hs. apply andb_true_iff in Hs as [Hx' Hr'].
    simpl in *. by rewrite (Hx Hx'), (IHr Hr').
Qed.

Lemma convert_decimals_agree_witness :
  _convert_decimals
    (VDict [("confidenceScore", VDecimal (decimal.Finite false 85 (-2)))]) =
  convert_decimals
    (VDict [("confidenceScore", VDecimal (decimal.Finite false 85 (-2)))]).
Proof. apply convert_decimals_agree. reflexivity. Defined.
(** ** More on the safe lookup *)

Lemma convert_decimals_None_inv x : convert_decimals x = Ok VNone -> x = VNone.
Proof.
  destruct x; try done.
  - simpl. intros Hv. by destruct (convert_decimal_Ok _ _ Hv) as [[n ?]|[f ?]].
  - rewrite convert_decimals_list_eq. intros Hv.
    by apply fmap_Ok_inv in Hv as [out [_ ?]].
  - rewrite convert_decimals_set_eq. intros Hv.
    by apply fmap_Ok_inv in Hv as [out [_ ?]].
  - rewrite convert_decimals_dict_eq. intros Hv.
    by apply fmap_Ok_inv in Hv as [out [_ ?]].
Qed.

(** With a default other than [None], [safe_get] never answers [None]. *)
Theorem safe_get_never_none (data : pyval) (key : string) (default v : pyval) :
  default <> VNone -> safe_get data key default = Ok v -> v <> VNone.
Proof.
  intros Hd. unfold safe_get.
  destruct (is_dict data); simpl; [|by intros [= <-]].
  destruct (walk data (split "." key)) as [current|]; [|by intros [= <-]].
  destruct (is_none current) eqn:En; simpl; [by intros [= <-]|].
  intros Hv ->. apply convert_decimals_None_inv in Hv. by subst.
Qed.

Lemma safe_get_never_none_witness :
  safe_get (VDict [("priority", VNone)]) "priority" (VStr "MEDIUM") =
    Ok (VStr "MEDIUM") /\
  VStr "MEDIUM" <> VNone.
Proof.
  split; [reflexivity|].
  apply (safe_get_never_none (VDict [("priority", VNone)]) "priority"
           (VStr "MEDIUM") (VStr "MEDIUM")); [discriminate | reflexivity].
Defined.

Lemma convert_decimals_dict_inv items r' :
  convert_decimals (VDict items) = Ok r' ->
  exists out, r' = VDict out /\
    Forall2 (fun kv kw => fst kv = fst kw /\
                          convert_decimals (snd kv) = Ok (snd kw)) items out.
Proof.
  rewrite convert_decimals_dict_eq. intros Hv.
  apply fmap_Ok_inv in Hv as [out [Hout ->]]. exists out.
  split; [done | by apply for_items_Forall2].
Qed.

Lemma convert_decimals_not_dict r r' :
  convert_decimals r = Ok r' -> is_dict r = false -> is_dict r' = false.
Proof.
  destruct r; try (by intros [= <-]).
  - simpl. intros Hv _. by destruct (convert_decimal_Ok _ _ Hv) as [[n ->]|[f ->]].
  - rewrite convert_decimals_list_eq. intros Hv _.
    by apply fmap_Ok_inv in Hv as [out [_ ->]].
  - rewrite convert_decimals_set_eq. intros Hv _.
    by apply fmap_Ok_inv in Hv as [out [_ ->]].
  - done.
Qed.

Lemma dict_get_converted k items out :
  Forall2 (fun kv kw => fst kv = fst kw /\
                        convert_decimals (snd kv) = Ok (snd kw)) items out ->
  match dict_get k items with
  | None => dict_get k out = None
  | Some v => exists v', dict_get k out = Some v' /\ convert_decimals v = Ok v'
  end.
Proof.
  induction 1 as [|[k1 v] [k2 w] l l' [Hk Hw] _ IH]; simpl; [done|].
  simpl in Hk, Hw. subst k2. destruct (String.eqb k1 k); [eauto | exact IH].
Qed.

Lemma walk_not_dict v k ks : is_dict v = false -> walk v (k :: ks) = None.
Proof. by destruct v. Qed.

Lemma walk_converted r r' p :
  convert_decimals r = Ok r' ->
  match walk r p with
  | None => walk r' p = None
  | Some x => exists x', walk r' p = Some x' /\ convert_decimals x = Ok x'
  end.
Proof.
  revert r r'. induction p as [|k p IH]; intros r r' Hr; [simpl; eauto|].
  destruct (is_dict r) eqn:Ed.
  - destruct r; try done.
    apply convert_decimals_dict_inv in Hr as [out [-> Hout]]. simpl.
    pose proof (dict_get_converted k _ _ Hout) as Hk.
    destruct (dict_get k items) as [v|].
    + destruct Hk as [v' [-> Hv]]. by apply IH.
    + by rewrite Hk.
  - rewrite (walk_not_dict _ _ _ Ed).
    apply walk_not_dict. by eapply convert_decimals_not_dict.
Qed.

Lemma split_app sep a b :
  split sep (a +:+ String sep b) = (split sep a ++ split sep b)%list.
Proof.
  induction a as [|c a IH]; simpl.
  - by rewrite Ascii.eqb_refl.
  - destruct (Ascii.eqb c sep); [by rewrite IH|].
    rewrite IH. pose proof (split_nonempty sep a). by destruct (split sep a).
Qed.

Lemma walk_app v p1 p2 :
  walk v (p1 ++ p2)%list =
  match walk v p1 with Some r => walk r p2 | None => None end.
Proof.
  revert v. induction p1 as [|k p1 IH]; intros v; simpl; [done|].
  destruct v; try done. by destruct (dict_get k items).
Qed.

(** Looking up [k1] with default [{}] and then [k2] in the answer, as the
    detail page does for [extractionMetadata] and [keyFindings], gives
    what one lookup of the dotted path [k1.k2] gives, provided the first
    lookup does not raise. *)
Theorem safe_get_two_steps (case : pyval) (k1 k2 : string)
    (default inner : pyval) :
  safe_get case k1 (VDict []) = Ok inner ->
  safe_get inner k2 default = safe_get case (k1 +:+ "." +:+ k2) default.
Proof.
  assert (Hempty : safe_get (VDict []) k2 default = Ok default).
  { unfold safe_get. simpl. pose proof (split_nonempty "." k2).
    by destruct (split "." k2). }
  unfold safe_get at 1 3.
  change ("." +:+ k2) with (String "." k2). rewrite split_app, walk_app.
  destruct (is_dict case); cbn [negb]; [|by intros [= <-]].
  destruct (walk case (split "." k1)) as [r|]; [|by intros [= <-]].
  pose proof (split_nonempty "." k2) as Hne.
  destruct (split "." k2) as [|k p] eqn:Ep; [done|].
  destruct (is_none r) eqn:En; cbn [negb].
  - intros [= <-]. rewrite Hempty. by destruct r.
  - intros Hr. unfold safe_get. rewrite Ep.
    destruct (is_dict r) eqn:Ed.
    + pose proof (walk_converted r inner (k :: p) Hr) as Hw.
      assert (Hdi : is_dict inner = true).
      { destruct r; try done.
        by apply convert_decimals_dict_inv in Hr as [out [-> _]]. }
      rewrite Hdi. cbn [negb].
      destruct (walk r (k :: p)) as [x|].
      * destruct Hw as [x' [-> Hx]].
        destruct (is_none x) eqn:Ex; cbn [negb].
        -- destruct x; try done. simpl in Hx. by injection Hx as <-.
        -- destruct (is_none x') eqn:Ex'; cbn [negb].
           ++ destruct x'; try done.
              apply convert_decimals_None_inv in Hx. by subst.
           ++ rewrite Hx.
              apply convert_decimals_Ok_native in Hx.
              by rewrite (convert_decimals_native _ Hx).
      * by rewrite Hw.
    + rewrite (convert_decimals_not_dict _ _ Hr Ed). cbn [negb].
      by rewrite (walk_not_dict _ _ _ Ed).
Qed.

Lemma safe_get_two_steps_witness :
  safe_get (VDict [("keyFindings", VList [VStr "fracture"])])
    "keyFindings" (VList []) =
  safe_get
    (VDict [("extractionMetadata",
             VDict [("keyFindings", VList [VStr "fracture"])])])
    "extractionMetadata.keyFindings" (VList []).
Proof.
  apply (safe_get_two_steps
           (VDict [("extractionMetadata",
                    VDict [("keyFindings", VList [VStr "fracture"])])])
           "extractionMetadata" "keyFindings").
  reflexivity.
Defined.
(** ** More on the store gateway *)




(** A scan answer without an [Items] key gives the empty list and logs
    nothing; an answer that is not a dict gives the empty list and an
    error record that names the type of the answer, as in
    ['NoneType' object has no attribute 'get']. *)
Theorem get_all_cases_odd_response {S} (client : AWSClient S) (w : world S)
    (table : Table S) (w1 w2 : world S) (response : pyval) :
  get_table client table_name w = (Ok table, w1) ->
  scan table w1 = (Ok response, w2) ->
  match response with
  | VDict entries =>
      dict_get "Items" entries = None ->
      get_all_cases client w = (Ok [], w2)
  | _ =>
      get_all_cases client w =
        (Ok [], {| store := store w2;
                   logs := logs w2 ++
                     [(ERROR, "Error fetching cases: '" +:+ type_name response
                              +:+ "' object has no attribute 'get'")] |})
  end.
Proof.
  intros Ht Hs.
  unfold get_all_cases, try_except, get_all_cases_body, seq, lift.
  rewrite Ht, Hs.
  destruct response; try reflexivity.
  intros Hi. unfold get_method, get_default. by rewrite Hi.
Qed.

Lemma get_all_cases_odd_response_witness :
  get_all_cases
    {| get_table := fun _ =>
         ret {| scan := ret (VDict [("Count", VInt 0)]);
                update_item := fun _ => ret (VDict []) |} |}
    (w0 tt) = (Ok [], w0 tt).
Proof.
  apply (get_all_cases_odd_response
           {| get_table := fun _ =>
                ret {| scan := ret (VDict [("Count", VInt 0)]);
                       update_item := fun _ => ret (VDict []) |} |}
           (w0 tt) _ _ _ (VDict [("Count", VInt 0)]) eq_refl eq_refl).
  reflexivity.
Defined.

(** [update_case_status] always returns a boolean: [True] when both
    calls on the client return, [False] when one of them raises.  The
    store is as these calls left it, and the log is theirs with exactly
    one record more: an info record with the case and the status when
    the answer is [True], an error record with the case and the cause
    when it is [False]. *)
Theorem update_case_status_never_raises {S} (client : AWSClient S)
    (case_id new_status : string) (w : world S) :
  let r := client_calls client case_id new_status w in
  update_case_status client case_id new_status w =
    (Ok (is_ok (fst r)),
     {| store := store (snd r);
        logs := logs (snd r) ++
          [match fst r with
           | Ok _ =>
               (INFO, "Case " +:+ case_id +:+ " updated to " +:+ new_status)
           | Raise e =>
               (ERROR,
                "Error updating case " +:+ case_id +:+ ": " +:+ exn_str e)
           end] |}).
Proof.
  unfold update_case_status, try_except, update_case_status_body,
    client_calls, seq.
  destruct (get_table client table_name w) as [[table|e] w1]; [|done].
  by destruct (update_item table (status_update case_id new_status) w1)
    as [[r|e] w2].
Qed.

(** ** The client's [get_table] *)

(** [AWSClient.get_table] hands on what the resource answers, table or
    exception, and leaves the store as the resource left it; it adds one
    error record to the log exactly when the exception is an instance of
    [ClientError], be it of a subclass. *)
Theorem AWSClient_get_table_passes_on {S}
    (isinstance_ClientError : exn -> bool)
    (describe : string -> M S (Table S)) (name : string) (w : world S) :
  let r := describe name w in
  let r' := AWSClient_get_table isinstance_ClientError describe name w in
  fst r' = fst r /\
  store (snd r') = store (snd r) /\
  logs (snd r') =
    (logs (snd r) ++
     match fst r with
     | Raise e =>
         if isinstance_ClientError e
         then [(ERROR, "Error accessing table " +:+ name +:+ ": " +:+ exn_str e)]
         else []
     | Ok _ => []
     end)%list.
Proof.
  cbv zeta. unfold AWSClient_get_table, try_except.
  destruct (describe name w) as [[t|e] w']; cbn [fst snd].
  - by rewrite app_nil_r.
  - destruct (isinstance_ClientError e); cbn [fst snd].
    + done.
    + by rewrite app_nil_r.
Qed.

(** A [ResourceNotFoundException] of the service, which is a subclass of
    [ClientError], is logged and raised again as it is. *)
Example AWSClient_get_table_subclass :
  AWSClient_get_table
    (fun e => match e with
              | Exn cls _ =>
                  String.eqb cls "ClientError" ||
                  String.eqb cls "ResourceNotFoundException"
              end)
    (fun _ => raise (Exn "ResourceNotFoundException" "Requested resource not found"))
    "HealthCareCases" (w0 tt) =
  (Raise (Exn "ResourceNotFoundException" "Requested resource not found"),
   {| store := tt;
      logs := [(ERROR, "Error accessing table HealthCareCases: Requested resource not found")] |}).
Proof. reflexivity. Qed.

(** ** Documents *)

Lemma split_once_no_sep sep s :
  ~ has_char sep s -> split_once sep s = [s].
Proof.
  unfold has_char. induction s as [|c s IH]; simpl; [done|].
  intros Hno. destruct (Ascii.eqb_spec c sep) as [->|Hne]; [tauto|].
  rewrite IH; [done | tauto].
Qed.

Lemma split_once_cut sep b k :
  ~ has_char sep b -> split_once sep (b +:+ String sep k) = [b; k].
Proof.
  unfold has_char. induction b as [|c b IH]; simpl.
  - by rewrite Ascii.eqb_refl.
  - intros Hno. destruct (Ascii.eqb_spec c sep) as [->|Hne]; [tauto|].
    rewrite IH; [done | tauto].
Qed.

Lemma split_once_inv sep s :
  (split_once sep s = [s] /\ ~ has_char sep s) \/
  (exists b k, split_once sep s = [b; k] /\ s = b +:+ String sep k /\
               ~ has_char sep b).
Proof.
  unfold has_char. induction s as [|c s IH]; simpl.
  - left. tauto.
  - destruct (Ascii.eqb_spec c sep) as [->|Hne].
    + right. exists "", s. simpl. tauto.
    + destruct IH as [[-> Hno] | [b [k [-> [-> Hno]]]]].
      * left. split; [done|]. tauto.
      * right. exists (String c b), k. simpl. split; [done|].
        split; [done|]. tauto.
Qed.

(** Bucket and key: a location is cut at its first slash. Unpacking
    succeeds with [(bucket, key)] exactly when the location is
    [bucket/key] with no slash in the bucket, and raises exactly when
    the location has no slash at all. *)
Theorem unpack_bucket_key_iff (s3_location bucket key : string) :
  (unpack_bucket_key s3_location = Ok (bucket, key) <->
   s3_location = bucket +:+ "/" +:+ key /\ ~ has_char "/" bucket) /\
  ((exists e, unpack_bucket_key s3_location = Raise e) <->
   ~ has_char "/" s3_location).
Proof.
  unfold unpack_bucket_key. split; split.
  - destruct (split_once_inv "/" s3_location)
      as [[-> Hno] | [b [k [-> [-> Hno]]]]]; [done|].
    by intros [= <- <-].
  - intros [-> Hno]. change ("/" +:+ key) with (String "/" key).
    by rewrite split_once_cut.
  - destruct (split_once_inv "/" s3_location)
      as [[-> Hno] | [b [k [-> [-> Hno]]]]]; [done|].
    by intros [e ?].
  - intros Hno. rewrite split_once_no_sep by done. eauto.
Qed.

(** A location without a slash, once its scheme is dropped, makes both
    S3 methods answer [None] with one error record; the S3 client is
    not even asked for, and the store is untouched. *)
Theorem s3_location_without_slash {S} (get_s3_client : M S (S3Client S))
    (gettempdir s3_location : string) (expires_in : Z) (w : world S) :
  ~ has_char "/" (strip_scheme s3_location) ->
  get_document_url get_s3_client s3_location expires_in w =
    (Ok None,
     {| store := store w;
        logs := logs w ++
          [(ERROR, "Error generating presigned URL: not enough values to unpack (expected 2, got 1)")] |}) /\
  download_document get_s3_client gettempdir s3_location w =
    (Ok None,
     {| store := store w;
        logs := logs w ++
          [(ERROR, "Error downloading document " +:+ strip_scheme s3_location
                   +:+ ": not enough values to unpack (expected 2, got 1)")] |}).
Proof.
  intros Hno.
  unfold get_document_url, download_document, try_except,
    get_document_url_body, download_document_body, seq, lift,
    unpack_bucket_key.
  cbv zeta. by rewrite (split_once_no_sep _ _ Hno).
Qed.

Lemma s3_location_without_slash_witness :
  get_document_url (ret recording_s3) "s3://bucket-only" 3600 (w0 []) =
    (Ok None,
     {| store := [];
        logs := [(ERROR, "Error generating presigned URL: not enough values to unpack (expected 2, got 1)")] |}).
Proof.
  apply (s3_location_without_slash (ret recording_s3) "/tmp"
           "s3://bucket-only" 3600 (w0 [])).
  vm_compute. intros H. repeat (destruct H as [H|H]; [discriminate|]). done.
Defined.

Lemma strip_scheme_s3 rest : strip_scheme ("s3://" +:+ rest) = rest.
Proof. reflexivity. Qed.

(** For [s3://bucket/key] the presigned URL is requested for exactly
    that bucket and key, with the given expiry, and the URL S3 answers
    is the result. *)
Theorem get_document_url_request {S} (get_s3_client : M S (S3Client S))
    (bucket key url : string) (expires_in : Z)
    (w w1 w2 : world S) (s3_client : S3Client S) :
  ~ has_char "/" bucket ->
  get_s3_client w = (Ok s3_client, w1) ->
  generate_presigned_url s3_client bucket key expires_in w1 = (Ok url, w2) ->
  get_document_url get_s3_client ("s3://" +:+ bucket +:+ "/" +:+ key)
    expires_in w = (Ok (Some url), w2).
Proof.
  intros Hno Hc Hu.
  unfold get_document_url, try_except, get_document_url_body, seq, lift,
    unpack_bucket_key.
  cbv zeta. rewrite strip_scheme_s3.
  change ("/" +:+ key) with (String "/" key).
  rewrite (split_once_cut _ _ _ Hno). cbn [fst snd].
  by rewrite Hc, Hu.
Qed.

Lemma get_document_url_request_witness :
  get_document_url (ret recording_s3) "s3://docs/2024/scan.pdf" 3600 (w0 []) =
    (Ok (Some "https://docs/2024/scan.pdf"),
     {| store := ["url docs 2024/scan.pdf"]; logs := [] |}).
Proof.
  apply (get_document_url_request (ret recording_s3) "docs" "2024/scan.pdf"
           "https://docs/2024/scan.pdf" 3600 (w0 []) (w0 []) _ recording_s3).
  - vm_compute. intros H. repeat (destruct H as [H|H]; [discriminate|]). done.
  - reflexivity.
  - reflexivity.
Defined.

Lemma split_no_sep sep s : ~ has_char sep s -> split sep s = [s].
Proof.
  unfold has_char. induction s as [|c s IH]; simpl; [done|].
  intros Hno. destruct (Ascii.eqb_spec c sep) as [->|Hne]; [tauto|].
  rewrite IH; [done | tauto].
Qed.

Lemma split_single sep s x : split sep s = [x] -> x = s /\ ~ has_char sep s.
Proof.
  unfold has_char. revert x. induction s as [|c s IH]; intros x; simpl.
  - intros [= <-]. tauto.
  - destruct (Ascii.eqb_spec c sep) as [->|Hne].
    + pose proof (split_nonempty sep s). by destruct (split sep s).
    + pose proof (split_nonempty sep s).
      destruct (split sep s) as [|hd [|y tl]] eqn:E; [done| |done].
      intros [= <-]. destruct (IH hd eq_refl) as [-> Hno].
      split; [done|]. tauto.
Qed.

Lemma ends_with_char_cons c a s :
  s = "" \/ ends_with_char c s = true ->
  (s = "" -> a = c) -> ends_with_char c (String a s) = true.
Proof.
  intros [->|Hs] Ha.
  - simpl. apply Ascii.eqb_eq. by apply Ha.
  - simpl. by destruct s.
Qed.

Lemma last_segment_parts (key : string) :
  exists prefix,
    key = prefix +:+ last_segment key /\
    (prefix = "" \/ ends_with_char "/" prefix = true) /\
    ~ has_char "/" (last_segment key).
Proof.
  unfold last_segment. induction key as [|c key IH].
  - exists "". unfold has_char. simpl. tauto.
  - destruct IH as [prefix [Hkey [Hpre Hno]]].
    pose proof (split_nonempty "/" key) as Hne.
    cbn [split]. destruct (Ascii.eqb_spec c "/") as [->|Hc].
    + destruct (split "/" key) as [|hd tl] eqn:E; [done|].
      change (List.last ("" :: hd :: tl) "") with (List.last (hd :: tl) "").
      exists (String "/" prefix).
      split; [by rewrite Hkey at 1|]. split; [|done].
      right. by apply ends_with_char_cons.
    + destruct (split "/" key) as [|hd [|x tl]] eqn:E; [done| |].
      * apply split_single in E as [-> Hk]. exists "".
        split; [done|]. split; [by left|].
        unfold has_char in *. simpl. intros [->|?]; [done | tauto].
      * change (List.last (String c hd :: x :: tl) "")
          with (List.last (hd :: x :: tl) "").
        exists (String c prefix).
        split; [by rewrite Hkey at 1|]. split; [|done].
        right. apply ends_with_char_cons; [done|].
        intros ->. exfalso.
        assert (Hk : key = List.last (hd :: x :: tl) "") by exact Hkey.
        rewrite <- Hk in Hno. by rewrite (split_no_sep _ _ Hno) in E.
Qed.

(** The name a document is downloaded under is what follows the last
    slash of its key: the key ends with it, what precedes it in the key
    is empty or ends with a slash, and it holds no slash itself. *)
Theorem last_segment_spec (key : string) :
  exists prefix,
    key = prefix +:+ last_segment key /\
    (prefix = "" \/ ends_with_char "/" prefix = true) /\
    ~ has_char "/" (last_segment key).
Proof. apply last_segment_parts. Qed.

Lemma path_join_name a name :
  ~ has_char "/" name ->
  path_join a name =
  a +:+ (if String.eqb a "" || ends_with_char "/" a then "" else "/") +:+ name.
Proof.
  intros Hno. unfold path_join.
  assert (Hs : starts_with "/" name = false).
  { destruct name as [|c name]; [done|]. cbn [starts_with].
    destruct (Ascii.eqb_spec "/" c) as [<-|]; [|done].
    exfalso. apply Hno. by left. }
  rewrite Hs. by destruct (_ || _).
Qed.

(** For [s3://bucket/key] the object is fetched from exactly that bucket
    and key into the temporary directory, under the last segment of the
    key; when the transfer succeeds that path is the result and is
    logged. *)
Theorem download_document_target {S} (get_s3_client : M S (S3Client S))
    (gettempdir bucket key : string)
    (w w1 w2 : world S) (s3_client : S3Client S) :
  let local_filename :=
    gettempdir +:+
    (if String.eqb gettempdir "" || ends_with_char "/" gettempdir
     then "" else "/") +:+ last_segment key in
  ~ has_char "/" bucket ->
  get_s3_client w = (Ok s3_client, w1) ->
  download_file s3_client bucket key local_filename w1 = (Ok tt, w2) ->
  download_document get_s3_client gettempdir
    ("s3://" +:+ bucket +:+ "/" +:+ key) w =
    (Ok (Some local_filename),
     {| store := store w2;
        logs := logs w2 ++
          [(INFO, "Downloaded document to: " +:+ local_filename)] |}).
Proof.
  intros local_filename Hno Hc Hd.
  unfold download_document, try_except, download_document_body, seq, lift,
    unpack_bucket_key.
  cbv zeta. rewrite strip_scheme_s3.
  change ("/" +:+ key) with (String "/" key).
  rewrite (split_once_cut _ _ _ Hno). cbn [fst snd].
  destruct (last_segment_parts key) as [prefix [_ [_ Hseg]]].
  rewrite (path_join_name _ _ Hseg). fold local_filename.
  by rewrite Hc, Hd.
Qed.

Lemma download_document_target_witness :
  download_document (ret recording_s3) "/tmp" "s3://docs/2024/scan.pdf"
    (w0 []) =
    (Ok (Some "/tmp/scan.pdf"),
     {| store := ["get docs 2024/scan.pdf /tmp/scan.pdf"];
        logs := [(INFO, "Downloaded document to: /tmp/scan.pdf")] |}).
Proof.
  assert (Hno : ~ has_char "/" "docs").
  { vm_compute. intros H. repeat (destruct H as [H|H]; [discriminate|]). done. }
  exact (download_document_target (ret recording_s3) "/tmp" "docs"
           "2024/scan.pdf" (w0 []) (w0 [])
           {| store := ["get docs 2024/scan.pdf /tmp/scan.pdf"]; logs := [] |}
           recording_s3 Hno eq_refl eq_refl).
Defined.
(** ** The date cell *)









(** On Linux the first years print short, and the first day of the year 1
    has no date: the instant a day before it is looked at as well. *)
Example display_date_early_years :
  @display_date (host 0) (VDict [("uploadDate", VInt (-30610310400))]) =
    Ok "999-12-31" /\
  @display_date (host 0) (VDict [("uploadDate", VInt (-62135510400))]) =
    Ok "1-01-02" /\
  @display_date (host 0) (VDict [("uploadDate", VInt (-62135596800))]) =
    Raise (Exn "ValueError" "year 0 is out of range").
Proof. split; [|split]; vm_compute; reflexivity. Qed.
